(** * Photomosaic: balanced assignment and per-cell colour transfer

    A shallow embedding of [photomosaic.py]:
    - [make_balanced_assignments] together with the part of Python's
      [random.Random] it drives (Mersenne Twister, [getrandbits],
      [_randbelow], [shuffle]);
    - [color_match_pixels] with its helpers, over IEEE binary32 arithmetic
      (numpy's [float32]);
    - [build_mosaic_random], the compositor. *)

From Stdlib Require Import ZArith Bool Lia String.
From Stdlib Require Import Floats.SpecFloat.
From stdpp Require Import base list.

Local Open Scope Z_scope.

(** ** Outcomes of a Python call

    A call returns a value, raises an exception (identified by its class
    name, as an [except] clause would), or is [Unfinished]: a loop of the
    model reached its iteration bound before the loop of the program ended. *)

Inductive exn : Set := Exception (cls : string).

Definition ZeroDivisionError : exn := Exception "ZeroDivisionError".
Definition IndexError : exn := Exception "IndexError".
Definition ValueError : exn := Exception "ValueError".

Inductive outcome (A : Type) : Type :=
| Returns (a : A)
| Raises (e : exn)
| Unfinished.
Arguments Returns {A} a.
Arguments Raises {A} e.
Arguments Unfinished {A}.

#[global] Instance outcome_ret : MRet outcome := fun _ a => Returns a.
#[global] Instance outcome_bind : MBind outcome := fun _ _ f m =>
  match m with
  | Returns a => f a
  | Raises e => Raises e
  | Unfinished => Unfinished
  end.

#[global] Instance outcome_fmap : FMap outcome := fun _ _ f m =>
  match m with
  | Returns a => Returns (f a)
  | Raises e => Raises e
  | Unfinished => Unfinished
  end.

(** Two outcomes agree when they are equal or one of them stopped at the
    model's iteration bound. *)
Definition agree {A} (o1 o2 : outcome A) : Prop :=
  o1 = Unfinished \/ o2 = Unfinished \/ o1 = o2.

Definition returns {A} (m : outcome A) : Prop := exists a, m = Returns a.

(** ** Python list and integer primitives used by the program *)

(** [list(range(n))] *)
Definition py_range (n : Z) : list Z := Z.of_nat <$> seq 0 (Z.to_nat n).

(** [l * k]: a non-positive [k] gives the empty list. *)
Definition py_repeat {A} (l : list A) (k : Z) : list A :=
  concat (replicate (Z.to_nat k) l).

(** [l[:m]]: a negative [m] counts from the end. *)
Definition py_prefix {A} (l : list A) (m : Z) : list A :=
  if 0 <=? m then take (Z.to_nat m) l
  else take (length l - Z.to_nat (- m)) l.

(** [l.count(i)] *)
Definition py_count (i : Z) (l : list Z) : nat :=
  length (filter (fun x => x = i) l).

(** [math.ceil(a / b)] for [b <> 0].  Python divides in binary64 and then
    takes the ceiling of the rounded quotient; that is the ceiling of the
    exact quotient as long as [|a| < 2^53] and [b] is the length of a list,
    which every call from [build_mosaic_random] satisfies (both are counts
    of objects in memory), so the quotient is taken exactly here.  Outside
    that range the program differs: the division raises [OverflowError]
    when the quotient exceeds the binary64 range, and a repeat count that
    does not fit a machine index is refused by [list * n]. *)
Definition ceil_div (a b : Z) : Z := - ((- a) / b).

(** [x[i], x[j] = x[j], x[i]]: both reads happen first and raise
    [IndexError] out of range. *)
Definition swap {A} (x : list A) (i j : nat) : outcome (list A) :=
  match x !! j, x !! i with
  | Some a, Some b => Returns (<[j := b]> (<[i := a]> x))
  | _, _ => Raises IndexError
  end.

(** ** The generator interface

    [make_balanced_assignments] receives its generator as an argument.  What
    [shuffle] needs from it is [_randbelow]: a non-negative integer below
    [n], and the generator's next state. *)

Class Generator (G : Type) := randbelow : nat -> G -> outcome (nat * G).

Section Shuffle.
Context {G : Type} `{Generator G}.

(** [random.Random.shuffle]:
<<
    for i in reversed(range(1, len(x))):
        j = randbelow(i + 1)
        x[i], x[j] = x[j], x[i]
>> *)
Fixpoint shuffle_from {A} (i : nat) (x : list A) (g : G)
  : outcome (list A * G) :=
  match i with
  | O => Returns (x, g)
  | S i' =>
      '(j, g') ← randbelow (S i) g;
      x' ← swap x i j;
      shuffle_from i' x' g'
  end.

Definition shuffle {A} (x : list A) (g : G) : outcome (list A * G) :=
  shuffle_from (length x - 1) x g.

(** [make_balanced_assignments(num_tiles, total_cells, rng)] *)
Definition make_balanced_assignments (num_tiles total_cells : Z) (rng : G)
  : outcome (list Z * G) :=
  if num_tiles =? 0 then Raises ZeroDivisionError
  else
    let repeats := ceil_div total_cells num_tiles in
    let base := py_repeat (py_range num_tiles) repeats in
    '(base, rng) ← shuffle base rng;
    Returns (py_prefix base total_cells, rng).

(** The contract of [_randbelow]: for a positive bound it returns, and the
    value it returns is below the bound. *)
Definition in_range_generator : Prop :=
  forall (n : nat) (g : G), (0 < n)%nat ->
    exists j g', randbelow n g = Returns (j, g') /\ (j < n)%nat.

(** The part of the contract that needs no termination argument: a draw
    never raises, and a draw that returns is below its bound. *)
Definition safe_generator : Prop :=
  forall (n : nat) (g : G), (0 < n)%nat ->
    match randbelow n g with
    | Returns (j, _) => (j < n)%nat
    | Raises _ => False
    | Unfinished => True
    end.
End Shuffle.

(** ** [random.Random]: the Mersenne Twister behind [random.Random(seed)]

    CPython's [_randommodule.c] (MT19937 on 32-bit words, written here on
    [Z] with the wrap-around spelled out) and the pure-Python layer of
    [random.py] above it. *)

Module MT.

Definition N : nat := 624.
Definition M : nat := 397.
Definition MATRIX_A : Z := 0x9908b0df.
Definition UPPER_MASK : Z := 0x80000000.
Definition LOWER_MASK : Z := 0x7fffffff.

Definition u32 (x : Z) : Z := x mod 2 ^ 32.

Record state := { mt : list Z; index : nat }.

(** [for (k = lo; k < lo + n; k++) s = body(k, s)] *)
Fixpoint for_loop {St} (n lo : nat) (body : nat -> St -> St) (s : St) : St :=
  match n with
  | O => s
  | S n' => for_loop n' (S lo) body (body lo s)
  end.

Definition init_genrand (s : Z) : state :=
  let step (mti : nat) (mt : list Z) :=
    let prev := mt !!! (mti - 1)%nat in
    <[mti := u32 (1812433253 * Z.lxor prev (Z.shiftr prev 30) + Z.of_nat mti)]> mt in
  {| mt := for_loop (N - 1) 1 step (<[0%nat := u32 s]> (replicate N 0));
     index := N |}.

(** The two mixing loops of [init_by_array] share their wrap of [i]. *)
Definition wrap_i (mt : list Z) (i : nat) : list Z * nat :=
  if (N <=? i)%nat then (<[0%nat := mt !!! (N - 1)%nat]> mt, 1%nat) else (mt, i).

Definition init_by_array (init_key : list Z) : state :=
  let key_length := length init_key in
  let mt0 := mt (init_genrand 19650218) in
  let step1 (_ : nat) (s : list Z * nat * nat) :=
    let '(mt, i, j) := s in
    let prev := mt !!! (i - 1)%nat in
    let v := u32 (Z.lxor (mt !!! i) (u32 (Z.lxor prev (Z.shiftr prev 30) * 1664525))
                  + init_key !!! j + Z.of_nat j) in
    let '(mt, i) := wrap_i (<[i := v]> mt) (S i) in
    let j := S j in
    (mt, i, if (key_length <=? j)%nat then 0%nat else j) in
  let '(mt1, i1, _) := for_loop (Nat.max N key_length) 0 step1 (mt0, 1%nat, 0%nat) in
  let step2 (_ : nat) (s : list Z * nat) :=
    let '(mt, i) := s in
    let prev := mt !!! (i - 1)%nat in
    let v := u32 (Z.lxor (mt !!! i) (u32 (Z.lxor prev (Z.shiftr prev 30) * 1566083941))
                  - Z.of_nat i) in
    wrap_i (<[i := v]> mt) (S i) in
  let '(mt2, _) := for_loop (N - 1) 0 step2 (mt1, i1) in
  {| mt := <[0%nat := 0x80000000]> mt2; index := N |}.

(** [random_seed] for an [int] argument: the key is [abs(seed)] in 32-bit
    words, least significant first, at least one word. *)
Definition seed_key (a : Z) : list Z :=
  let n := Z.abs a in
  (fun i => u32 (Z.shiftr n (32 * Z.of_nat i))) <$> seq 0 (Z.to_nat (Z.log2 n / 32 + 1)).

(** [random.Random(seed)] *)
Definition Random (seed : Z) : state := init_by_array (seed_key seed).

Definition twist_word (mt : list Z) (kk next from : nat) : list Z :=
  let y := Z.lor (Z.land (mt !!! kk) UPPER_MASK) (Z.land (mt !!! next) LOWER_MASK) in
  <[kk := Z.lxor (Z.lxor (mt !!! from) (Z.shiftr y 1))
                 (if Z.testbit y 0 then MATRIX_A else 0)]> mt.

Definition regenerate (mt : list Z) : list Z :=
  let mt := for_loop (N - M) 0 (fun kk mt => twist_word mt kk (kk + 1) (kk + M)) mt in
  let mt := for_loop (M - 1) (N - M)
              (fun kk mt => twist_word mt kk (kk + 1) (kk + M - N)) mt in
  twist_word mt (N - 1) 0 (M - 1).

Definition temper (y : Z) : Z :=
  let y := Z.lxor y (Z.shiftr y 11) in
  let y := Z.lxor y (Z.land (u32 (Z.shiftl y 7)) 0x9d2c5680) in
  let y := Z.lxor y (Z.land (u32 (Z.shiftl y 15)) 0xefc60000) in
  Z.lxor y (Z.shiftr y 18).

Definition genrand_uint32 (st : state) : Z * state :=
  let st := if (N <=? index st)%nat
            then {| mt := regenerate (mt st); index := 0 |} else st in
  (temper (mt st !!! index st), {| mt := mt st; index := S (index st) |}).

(** [getrandbits(k)]: one word when [k <= 32], otherwise words are
    assembled least significant first, the last one cut to the bits left. *)
Fixpoint getrandbits_words (words : nat) (k : Z) (st : state) : Z * state :=
  match words with
  | O => (0, st)
  | S words' =>
      let '(r, st) := genrand_uint32 st in
      let r := if k <? 32 then Z.shiftr r (32 - k) else r in
      let '(hi, st) := getrandbits_words words' (k - 32) st in
      (r + Z.shiftl hi 32, st)
  end.

Definition getrandbits (k : Z) (st : state) : Z * state :=
  if k =? 0 then (0, st)
  else if k <=? 32 then
    let '(r, st) := genrand_uint32 st in (Z.shiftr r (32 - k), st)
  else getrandbits_words (Z.to_nat ((k - 1) / 32 + 1)) k st.

Definition bit_length (n : Z) : Z := if n =? 0 then 0 else Z.log2 n + 1.

(** [_randbelow_with_getrandbits]:
<<
    k = n.bit_length()
    r = getrandbits(k)
    while r >= n:
        r = getrandbits(k)
    return r
>>
    [attempts] bounds the number of draws the model follows. *)
Fixpoint randbelow_loop (attempts : nat) (k n : Z) (st : state)
  : outcome (Z * state) :=
  match attempts with
  | O => Unfinished
  | S attempts' =>
      let '(r, st) := getrandbits k st in
      if r <? n then Returns (r, st) else randbelow_loop attempts' k n st
  end.

Definition _randbelow (attempts : nat) (n : Z) (st : state) : outcome (Z * state) :=
  randbelow_loop attempts (bit_length n) n st.

End MT.

#[global] Instance MT_generator (attempts : nat) : Generator MT.state :=
  fun n st => '(r, st) ← MT._randbelow attempts (Z.of_nat n) st; Returns (Z.to_nat r, st).

(** [assign(N, M, seed)]: lines 153-154 of [build_mosaic_random], a fresh
    [random.Random(seed)] handed to [make_balanced_assignments]. *)
Definition assign (attempts : nat) (num_tiles total_cells seed : Z) : outcome (list Z) :=
  fst <$> make_balanced_assignments (H := MT_generator attempts)
            num_tiles total_cells (MT.Random seed).

(** ** The interpreter state around a call

    What a call could read besides its arguments: the [random.Random]
    objects alive in the interpreter, among them the hidden instance behind
    the module-level functions [random.shuffle], [random.random], ..., and
    the bytes [os.urandom] will deliver next, from which an unseeded
    generator takes its state. *)

Record world := { generators : list MT.state; urandom : list (list Z) }.

(** The hidden instance of the module [random]. *)
Definition module_generator : nat := 0.

(** [random.Random(x)]: a fresh object.  With an [int] its state is a
    function of the integer; with [None] it is made from [os.urandom]. *)
Definition new_Random (x : option Z) (w : world) : nat * world :=
  match x with
  | Some seed =>
      (length (generators w),
       {| generators := generators w ++ [MT.Random seed]; urandom := urandom w |})
  | None =>
      (length (generators w),
       {| generators := generators w ++ [MT.init_by_array (default [] (head (urandom w)))];
          urandom := tail (urandom w) |})
  end.

(** A generator object in its interpreter: the receiver of [rng.shuffle].
    A draw reads and updates the state of that object and of no other. *)
Record receiver := { store : world; self : nat }.

Definition SystemError : exn := Exception "SystemError".

#[global] Instance object_generator (attempts : nat) : Generator receiver :=
  fun n r =>
    match generators (store r) !! self r with
    | None => Raises SystemError
    | Some st =>
        '(j, st) ← randbelow (Generator := MT_generator attempts) n st;
        Returns (j, {| store := {| generators := <[self r := st]> (generators (store r));
                                   urandom := urandom (store r) |};
                       self := self r |})
    end.

(** Lines 153-154 of [build_mosaic_random] as a call in an interpreter:
<<
      rng = random.Random(seed)
      assignments = make_balanced_assignments(len(tiles), total_cells, rng)
>>
    The program passes an [int] given on the command line ([Some seed]). *)
Definition assign_call (attempts : nat) (num_tiles total_cells : Z) (seed : option Z)
    (w : world) : outcome (list Z * world) :=
  let '(rng, w) := new_Random seed w in
  '(assignments, r) ← make_balanced_assignments (H := object_generator attempts)
                        num_tiles total_cells {| store := w; self := rng |};
  Returns (assignments, store r).

(** The object [r] is the one created last in [w0], in state [st], and the
    rest of the interpreter is as it was in [w0]. *)
Definition bound_to (w0 : world) (r : receiver) (st : MT.state) : Prop :=
  self r = length (generators w0)
  /\ generators (store r) = generators w0 ++ [st]
  /\ urandom (store r) = urandom w0.

(** A computation on the object and the same computation on its state go
    the same way. *)
Definition in_step {A} (w0 : world) (o1 : outcome (A * receiver))
    (o2 : outcome (A * MT.state)) : Prop :=
  match o1, o2 with
  | Returns (a1, r), Returns (a2, st) => a1 = a2 /\ bound_to w0 r st
  | Raises e1, Raises e2 => e1 = e2
  | Unfinished, Unfinished => True
  | _, _ => False
  end.

(** ** numpy's [float32]

    IEEE 754 binary32 with round-to-nearest-even, as specified by the
    standard library's [SpecFloat] at precision 24.  Comparison with an
    integer, clipping and the conversion to an integer are defined on the
    exact value [(-1)^s * m * 2^e] of a float. *)

#[global] Instance spec_float_inhabited : Inhabited spec_float := populate (S754_zero false).

Module F32.

Definition prec : Z := 24.
Definition emax : Z := 128.

Abbreviation float32 := spec_float.

Definition add : float32 -> float32 -> float32 := SFadd prec emax.
Definition sub : float32 -> float32 -> float32 := SFsub prec emax.
Definition mul : float32 -> float32 -> float32 := SFmul prec emax.
Definition div : float32 -> float32 -> float32 := SFdiv prec emax.
Definition sqrt : float32 -> float32 := SFsqrt prec emax.

(** [np.float32(n)] for an integer [n] *)
Definition of_Z (n : Z) : float32 := binary_normalize prec emax n 0 false.

(** [x * y + z] rounded once (fused multiply-add): the exact product is
    aligned with [z] and the exact sum is rounded. *)
Definition fma (x y z : float32) : float32 :=
  match x, y, z with
  | S754_finite sx mx ex, S754_finite sy my ey, S754_finite sz mz ez =>
      let s := xorb sx sy in
      let m := (mx * my)%positive in
      let e := ex + ey in
      let e' := Z.min e ez in
      binary_normalize prec emax
        (cond_Zopp s (Zpos (fst (shl_align m e e')))
         + cond_Zopp sz (Zpos (fst (shl_align mz ez e')))) e' false
  | _, _, _ => add (mul x y) z
  end.

(** The float32 nearest to the decimal literal [num / den]; both are below
    [2^24], so the quotient of their exact conversions is rounded once. *)
Definition of_decimal (num den : Z) : float32 := div (of_Z num) (of_Z den).

Definition zero : float32 := S754_zero false.
Definition one : float32 := of_Z 1.

(** Neither an infinity nor a NaN. *)
Definition is_finite (x : float32) : bool :=
  match x with
  | S754_zero _ | S754_finite _ _ _ => true
  | _ => false
  end.


(** [x > y] *)
Definition gtb (x y : float32) : bool := SFltb y x.

(** The signed mantissa of a finite float. *)
Definition signed (s : bool) (m : positive) : Z := if s then Z.neg m else Z.pos m.

(** Exact comparison of [x] with the integer [k]; [None] for NaN. *)
Definition compare_Z (x : float32) (k : Z) : option comparison :=
  match x with
  | S754_nan => None
  | S754_infinity s => Some (if s then Lt else Gt)
  | S754_zero _ => Some (0 ?= k)
  | S754_finite s m e =>
      Some (if 0 <=? e then signed s m * 2 ^ e ?= k
            else signed s m ?= k * 2 ^ (- e))
  end.

(** [np.clip(x, lo, hi)] on one element: NaN stays NaN. *)
Definition clip (x : float32) (lo hi : Z) : float32 :=
  match compare_Z x lo, compare_Z x hi with
  | Some Lt, _ => of_Z lo
  | _, Some Gt => of_Z hi
  | _, _ => x
  end.

(** [x.astype(np.uint8)] on one element: the fractional part is dropped
    (truncation toward zero).  The program converts clipped values only;
    for NaN, which [np.clip] lets through, C leaves the conversion
    undefined and the usual platforms give 0. *)
Definition astype_uint8 (x : float32) : Z :=
  match x with
  | S754_finite s m e =>
      if 0 <=? e then signed s m * 2 ^ e else Z.quot (signed s m) (2 ^ (- e))
  | _ => 0
  end.


(** [a.sum()] along the slow axis: numpy accumulates the elements in
    order, starting from the identity [0.0]. *)
Definition sum (a : list float32) : float32 := foldl add zero a.

(** numpy's pairwise summation, used when a one-dimensional array is
    reduced: below 8 elements a plain loop starting from [-0.0], up to 128
    elements eight interleaved accumulators, above that a split in two
    halves, the first a multiple of 8 long. *)
Definition sum_small (a : list float32) : float32 := foldl add (S754_zero true) a.

Fixpoint sum_unrolled (r : list float32) (a : list float32) (blocks : nat)
  : list float32 * list float32 :=
  match blocks with
  | O => (r, a)
  | S blocks' => sum_unrolled (zip_with add r (take 8 a)) (drop 8 a) blocks'
  end.

Definition sum_block (a : list float32) : float32 :=
  let '(r, rest) := sum_unrolled (take 8 a) (drop 8 a) (length a / 8 - 1) in
  let r i := r !!! i in
  foldl add
    (add (add (add (r 0%nat) (r 1%nat)) (add (r 2%nat) (r 3%nat)))
         (add (add (r 4%nat) (r 5%nat)) (add (r 6%nat) (r 7%nat)))) rest.

Fixpoint pairwise_sum_rec (depth : nat) (a : list float32) : float32 :=
  let n := length a in
  if (n <? 8)%nat then sum_small a
  else if (n <=? 128)%nat then sum_block a
  else match depth with
       | O => sum_block a
       | S depth' =>
           let n2 := (n / 2)%nat in
           let n2 := (n2 - n2 mod 8)%nat in
           add (pairwise_sum_rec depth' (take n2 a))
               (pairwise_sum_rec depth' (drop n2 a))
       end.

(** The length bounds the depth of the recursion, so the [O] case above
    is never taken on a list longer than 128. *)
Definition pairwise_sum (a : list float32) : float32 :=
  add zero (pairwise_sum_rec (length a) a).

End F32.

(** ** Colour matching helpers *)

Definition pixel : Type := Z * Z * Z.

(** A row of an [(n, 3)] float32 array, and the array. *)
Definition row : Type := F32.float32 * F32.float32 * F32.float32.
Definition array : Type := list row.

Definition row_map (f : F32.float32 -> F32.float32) (a : row) : row :=
  let '(a0, a1, a2) := a in (f a0, f a1, f a2).

Definition row_zip (f : F32.float32 -> F32.float32 -> F32.float32) (a b : row) : row :=
  let '(a0, a1, a2) := a in let '(b0, b1, b2) := b in (f a0 b0, f a1 b1, f a2 b2).

(** The three channels of a pixel or of a row. *)
Inductive channel : Set := R | G | B.

Definition chan {A} (c : channel) (p : A * A * A) : A :=
  let '(r, g, b) := p in
  match c with R => r | G => g | B => b end.

Definition EPS : F32.float32 := F32.of_decimal 1 1000000.

(** [_to_np_rgb]: [bytearray] raises [ValueError] for a component outside
    [range(0, 256)]; the bytes are then read as rows of three float32. *)
Definition is_byte (c : Z) : bool := (0 <=? c) && (c <? 256).

Definition valid_pixel (p : pixel) : bool :=
  let '(r, g, b) := p in is_byte r && is_byte g && is_byte b.

Definition pixel_row (p : pixel) : row :=
  let '(r, g, b) := p in (F32.of_Z r, F32.of_Z g, F32.of_Z b).

Definition _to_np_rgb (pixels : list pixel) : outcome array :=
  if forallb valid_pixel pixels then Returns (pixel_row <$> pixels)
  else Raises ValueError.

(** [_clip_back] *)
Definition clip_back_value (x : F32.float32) : Z := F32.astype_uint8 (F32.clip x 0 255).

Definition clip_back_row (r : row) : pixel :=
  let '(r0, r1, r2) := r in (clip_back_value r0, clip_back_value r1, clip_back_value r2).

Definition _clip_back (arr : array) : list pixel := clip_back_row <$> arr.

(** [rgb @ M.T].  numpy hands the product of two float32 matrices to BLAS
    ([sgemm]), whose kernels keep one accumulator per entry of the result,
    start it at 0 and add the products of the inner index to it in order by
    fused multiply-add: each of the three steps is rounded once. *)
Definition dot (a m : row) : F32.float32 :=
  let '(a0, a1, a2) := a in let '(m0, m1, m2) := m in
  F32.fma a2 m2 (F32.fma a1 m1 (F32.fma a0 m0 F32.zero)).

Definition matvec (M : row * row * row) (r : row) : row :=
  let '(M0, M1, M2) := M in (dot r M0, dot r M1, dot r M2).

Definition matmul_T (a : array) (M : row * row * row) : array := matvec M <$> a.

Definition RGB_TO_YUV : row * row * row :=
  ((F32.of_decimal 299 1000, F32.of_decimal 587 1000, F32.of_decimal 114 1000),
   (F32.of_decimal (-147) 1000, F32.of_decimal (-289) 1000, F32.of_decimal 436 1000),
   (F32.of_decimal 615 1000, F32.of_decimal (-515) 1000, F32.of_decimal (-100) 1000)).

Definition YUV_TO_RGB : row * row * row :=
  ((F32.of_decimal 1 1, F32.of_decimal 0 1, F32.of_decimal 113983 100000),
   (F32.of_decimal 1 1, F32.of_decimal (-39465) 100000, F32.of_decimal (-58060) 100000),
   (F32.of_decimal 1 1, F32.of_decimal 203211 100000, F32.of_decimal 0 1)).

Definition _rgb_to_yuv (rgb : array) : array := matmul_T rgb RGB_TO_YUV.

Definition _yuv_to_rgb (yuv : array) : array := matmul_T yuv YUV_TO_RGB.

(** ** Statistics *)

(** [a.mean()] and [a.std()] of a one-dimensional float32 array: the sum
    (by [reduce]) divided by the length, and the square root of the mean
    squared deviation. *)
Definition mean_with (reduce : list F32.float32 -> F32.float32) (a : list F32.float32)
  : F32.float32 :=
  F32.div (reduce a) (F32.of_Z (Z.of_nat (length a))).

Definition std_with (reduce : list F32.float32 -> F32.float32) (a : list F32.float32)
  : F32.float32 :=
  let arrmean := mean_with reduce a in
  let x := (fun v => F32.sub v arrmean) <$> a in
  let x := (fun v => F32.mul v v) <$> x in
  F32.sqrt (F32.div (reduce x) (F32.of_Z (Z.of_nat (length a)))).

(** One column of an [(n, 3)] array reduced along axis 0. *)
Definition mean1 : list F32.float32 -> F32.float32 := mean_with F32.sum.
Definition std1 : list F32.float32 -> F32.float32 := std_with F32.sum.

(** [a.mean(axis=0)] and [a.std(axis=0)]: numpy adds the rows one after the
    other into a row of three accumulators. *)
Definition sum_axis0 (a : array) : row :=
  foldl (row_zip F32.add) (F32.zero, F32.zero, F32.zero) a.

Definition mean_axis0 (a : array) : row :=
  let n := F32.of_Z (Z.of_nat (length a)) in
  row_map (fun s => F32.div s n) (sum_axis0 a).

Definition std_axis0 (a : array) : row :=
  let n := F32.of_Z (Z.of_nat (length a)) in
  let arrmean := mean_axis0 a in
  let x := (fun r => row_zip F32.sub r arrmean) <$> a in
  let x := (fun r => row_zip F32.mul r r) <$> x in
  row_map (fun s => F32.sqrt (F32.div s n)) (sum_axis0 x).

(** ** [color_match_pixels] *)

(** [yuv[:, 0]] and the assignment [yuv[:, 0] = y]. *)
Definition column0 (yuv : array) : list F32.float32 := chan R <$> yuv.

Definition set_column0 (yuv : array) (y : list F32.float32) : array :=
  zip_with (fun '(_, u, v) y' => (y', u, v)) yuv y.

(** The gain and bias of the luma mode, from the luma columns. *)
Definition luma_gain (y_t y_g : list F32.float32) : F32.float32 :=
  let sd_t := std_with F32.pairwise_sum y_t in
  let sd_g := std_with F32.pairwise_sum y_g in
  if F32.gtb sd_t EPS then F32.div sd_g (F32.add sd_t EPS) else F32.one.

Definition luma_bias (y_t y_g : list F32.float32) : F32.float32 :=
  let mu_t := mean_with F32.pairwise_sum y_t in
  let mu_g := mean_with F32.pairwise_sum y_g in
  F32.sub mu_g (F32.mul mu_t (luma_gain y_t y_g)).

(** The transformed luma/chroma buffer, before it is converted back. *)
Definition luma_match (t g : array) : array :=
  let yuv_t := _rgb_to_yuv t in
  let yuv_g := _rgb_to_yuv g in
  let y_t := column0 yuv_t in
  let y_g := column0 yuv_g in
  let gain := luma_gain y_t y_g in
  let bias := luma_bias y_t y_g in
  set_column0 yuv_t ((fun y => F32.add (F32.mul y gain) bias) <$> y_t).

(** The float32 array handed to [_clip_back], per mode.  Scalars mixed with
    float32 values take the float32 type (NumPy 2 promotion). *)
Definition color_match_array (t g : array) (mode : string) : array :=
  if String.eqb mode "luma" then _yuv_to_rgb (luma_match t g)
  else
    let mu_t := mean_axis0 t in
    let mu_g := mean_axis0 g in
    if String.eqb mode "mean" then
      (fun r => row_zip F32.add r (row_zip F32.sub mu_g mu_t)) <$> t
    else
      let sd_t := std_axis0 t in
      let sd_g := std_axis0 g in
      let gain := row_zip F32.div sd_g (row_map (fun s => F32.add s EPS) sd_t) in
      (fun r => row_zip F32.add (row_zip F32.mul (row_zip F32.sub r mu_t) gain) mu_g) <$> t.

Definition color_match_pixels (tile_pixels target_pixels : list pixel) (mode : string)
  : outcome (list pixel) :=
  t ← _to_np_rgb tile_pixels;
  g ← _to_np_rgb target_pixels;
  Returns (_clip_back (color_match_array t g mode)).

(** ** Images

    The part of Pillow that [build_mosaic_random] uses, on images stored as
    a row-major list of pixels.  Reads outside an image give black, as
    [crop] pads. *)

Record Image := { width : Z; height : Z; data : list pixel }.

Definition TypeError : exn := Exception "TypeError".

Definition black : pixel := (0, 0, 0).

Definition box : Type := Z * Z * Z * Z.

Definition getpixel (im : Image) (x y : Z) : pixel :=
  if (0 <=? x) && (x <? width im) && (0 <=? y) && (y <? height im)
  then default black (data im !! Z.to_nat (y * width im + x))
  else black.

(** The pixels of the [w] by [h] raster [f], row after row. *)
Definition raster (w h : Z) (f : Z -> Z -> pixel) : list pixel :=
  y ← py_range h; x ← py_range w; [f x y].

(** [Image.new("RGB", (w, h))] *)
Definition Image_new (w h : Z) : outcome Image :=
  if (w <? 0) || (h <? 0) then Raises ValueError
  else Returns {| width := w; height := h; data := raster w h (fun _ _ => black) |}.

(** [im.crop(box)] *)
Definition crop (im : Image) (b : box) : outcome Image :=
  let '(x0, y0, x1, y1) := b in
  if (x1 <? x0) || (y1 <? y0) then Raises ValueError
  else Returns {| width := x1 - x0; height := y1 - y0;
                  data := raster (x1 - x0) (y1 - y0)
                            (fun x y => getpixel im (x0 + x) (y0 + y)) |}.

(** [list(im.getdata())] *)
Definition getdata (im : Image) : list pixel := data im.

(** [im.putdata(px)]: the pixels are stored from the first one on; more
    pixels than the image holds are refused. *)
Definition putdata (im : Image) (px : list pixel) : outcome Image :=
  if (length (data im) <? length px)%nat then Raises TypeError
  else Returns {| width := width im; height := height im;
                  data := px ++ drop (length px) (data im) |}.

(** [im.paste(tile, box)]: the box must have the size of [tile]. *)
Definition paste (im tile : Image) (b : box) : outcome Image :=
  let '(x0, y0, x1, y1) := b in
  if negb ((x1 - x0 =? width tile) && (y1 - y0 =? height tile)) then Raises ValueError
  else Returns {| width := width im; height := height im;
                  data := raster (width im) (height im) (fun x y =>
                    if (x0 <=? x) && (x <? x1) && (y0 <=? y) && (y <? y1)
                    then getpixel tile (x - x0) (y - y0) else getpixel im x y) |}.

(** ** [build_mosaic_random]

    What the caller observes of a build is the text printed and the call
    that saves the file, in order, and whether the build returned. *)

Inductive event : Type :=
| PrintGrid (x_count y_count total_cells : Z)
| PrintProgress (done total_cells : Z)
| Save (out_path : string) (mosaic : Image)
| PrintFinished (out_path : string).

(** One cell of the double loop: the body for [(yi, xi)], on the mosaic and
    the count of cells done so far. *)
Definition build_cell (target : Image) (tiles_pixels : list (list pixel))
    (assignments : list Z) (mode : string) (tile_size x_count total_cells : Z)
    (yi xi : Z) (st : Image * Z) : outcome (Image * Z * list event) :=
  let '(mosaic, done) := st in
  let idx := yi * x_count + xi in
  let tx := xi * tile_size in
  let ty := yi * tile_size in
  let b : box := (tx, ty, tx + tile_size, ty + tile_size) in
  patch ← crop target b;
  let target_patch := getdata patch in
  match assignments !! Z.to_nat idx with
  | None => Raises IndexError
  | Some tile_idx =>
      match tiles_pixels !! Z.to_nat tile_idx with
      | None => Raises IndexError
      | Some tile_px =>
          matched_px ← color_match_pixels tile_px target_patch mode;
          tile_img ← Image_new tile_size tile_size;
          tile_img ← putdata tile_img matched_px;
          mosaic ← paste mosaic tile_img b;
          let done := done + 1 in
          Returns (mosaic, done,
                   if done mod (Z.max 1 (total_cells / 100)) =? 0
                   then [PrintProgress done total_cells] else [])
      end
  end.

(** The double loop over [range(y_count)] and [range(x_count)]; the events
    of the cells completed before an exception stay printed. *)
Fixpoint build_cells (cell : Z -> Z -> Image * Z -> outcome (Image * Z * list event))
    (cells : list (Z * Z)) (st : Image * Z) : list event * outcome (Image * Z) :=
  match cells with
  | [] => ([], Returns st)
  | (yi, xi) :: cells' =>
      match cell yi xi st with
      | Returns (mosaic, done, evs) =>
          let '(evs', r) := build_cells cell cells' (mosaic, done) in
          (evs ++ evs', r)
      | Raises e => ([], Raises e)
      | Unfinished => ([], Unfinished)
      end
  end.

(** The last two lines: [mosaic.save(out_path, quality=95)] and the
    report.  Saving is Pillow's and the file system's: the encoder is chosen
    from the extension of [out_path] ([ValueError] for an unknown one), the
    image is encoded and written ([OSError]).  [save mosaic out_path] stands
    for that call; the event [Save] records that it was made, whether or
    not it succeeded. *)
Definition save_and_report (save : Image -> string -> outcome unit)
    (mosaic : Image) (out_path : string) : list event * outcome unit :=
  match save mosaic out_path with
  | Returns _ => ([Save out_path mosaic; PrintFinished out_path], Returns ())
  | Raises e => ([Save out_path mosaic], Raises e)
  | Unfinished => ([Save out_path mosaic], Unfinished)
  end.

Definition build_mosaic_random (save : Image -> string -> outcome unit)
    (attempts : nat) (target_big : Image)
    (tiles : list Image) (mode : string) (seed : Z) (out_path : string)
    (tile_size : Z) : list event * outcome unit :=
  let W := width target_big in
  let H := height target_big in
  if tile_size =? 0 then ([], Raises ZeroDivisionError)
  else
    let x_count := W / tile_size in
    let y_count := H / tile_size in
    let total_cells := x_count * y_count in
    let log := [PrintGrid x_count y_count total_cells] in
    let rng := MT.Random seed in
    match make_balanced_assignments (H := MT_generator attempts)
            (Z.of_nat (length tiles)) total_cells rng with
    | Raises e => (log, Raises e)
    | Unfinished => (log, Unfinished)
    | Returns (assignments, _) =>
        let tiles_pixels := getdata <$> tiles in
        match Image_new W H with
        | Raises e => (log, Raises e)
        | Unfinished => (log, Unfinished)
        | Returns mosaic =>
            let cells := yi ← py_range y_count; xi ← py_range x_count; [(yi, xi)] in
            let '(evs, r) :=
              build_cells (build_cell target_big tiles_pixels assignments mode
                             tile_size x_count total_cells) cells (mosaic, 0) in
            match r with
            | Raises e => (log ++ evs, Raises e)
            | Unfinished => (log ++ evs, Unfinished)
            | Returns (mosaic, _) =>
                let '(evs', r) := save_and_report save mosaic out_path in
                (log ++ evs ++ evs', r)
            end
        end
    end.

(** ** Vocabulary of the specification *)

(** The error kinds the specification names; the program defines no
    exception classes of its own. *)
Definition ShapeMismatch : exn := Exception "ShapeMismatch".
Definition EmptyTileSet : exn := Exception "EmptyTileSet".

(** Balance within [d]: no tile index in [[0, N)] occurs more than [d]
    times more often than another. *)
Definition balanced_within (N d : Z) (l : list Z) : Prop :=
  forall i j, 0 <= i < N -> 0 <= j < N ->
    Z.of_nat (py_count i l) <= Z.of_nat (py_count j l) + d.

(** A grey pixel, and a channel of a pixel buffer as a float32 column. *)
Definition gray (v : Z) : pixel := (v, v, v).

Definition column (c : channel) (pixels : list pixel) : list F32.float32 :=
  (fun p => F32.of_Z (chan c p)) <$> pixels.

(** [|x - y| <= tol], on exact values. *)
Definition within (tol : Z) (x y : F32.float32) : Prop :=
  F32.compare_Z (F32.sub x y) tol <> Some Gt /\
  F32.compare_Z (F32.sub x y) (- tol) <> Some Lt /\
  F32.compare_Z (F32.sub x y) tol <> None.

(** The statistics of a buffer, as a test of the property would take them:
    float32 mean and standard deviation of one channel. *)
Definition channel_mean (c : channel) (pixels : list pixel) : F32.float32 :=
  mean1 (column c pixels).
Definition channel_std (c : channel) (pixels : list pixel) : F32.float32 :=
  std1 (column c pixels).







(** [s.endswith(suffix)]. *)
Definition has_suffix (suffix s : string) : bool :=
  String.eqb suffix
    (String.substring (String.length s - String.length suffix)%nat
       (String.length suffix) s).

Definition OSError : exn := Exception "OSError".

(** A stand-in for [Image.save] in examples: like Pillow it refuses, with
    [ValueError], a name without an extension it knows; it also refuses an
    image without pixels, and accepts everything else. *)
Definition save_by_extension (im : Image) (path : string) : outcome unit :=
  if negb (has_suffix ".jpeg" path || has_suffix ".jpg" path || has_suffix ".png" path)
  then Raises ValueError
  else if (width im =? 0) || (height im =? 0) then Raises OSError
  else Returns ().

(** A generator that replays a script of raw draws, each reduced below the
    bound asked for; an empty script answers 0.  It stands for any
    generator that honours the contract of [_randbelow]. *)
#[global] Instance scripted_generator : Generator (list nat) :=
  fun n g =>
    match g with
    | [] => Returns (0%nat, [])
    | r :: g' => Returns ((r mod n)%nat, g')
    end.


(** ** Loading and preparing images

    [Image.open], EXIF transposition, conversion to RGB and Lanczos
    resampling are Pillow's; the program's part is the geometry around
    them.  A decoded file is given as the outcome of opening it, and the
    resampler is a parameter: [resize im w h] stands for
    [im.resize((w, h), Image.LANCZOS)], as [save] stands for
    [Image.save]. *)

Definition RuntimeError : exn := Exception "RuntimeError".

(** An image holds as many pixels as its size says. *)
Definition well_formed (im : Image) : Prop :=
  0 <= width im /\ 0 <= height im /\
  Z.of_nat (length (data im)) = width im * height im.

Section Loading.
Variable resize : Image -> Z -> Z -> outcome Image.
Variable save : Image -> string -> outcome unit.

(** [load_target], from the decoded image on. *)
Definition load_target (img : Image) (enlargement tile_size : Z) : outcome Image :=
let w := width img * enlargement in
let h := height img * enlargement in
big ← resize img w h;
if tile_size =? 0 then Raises ZeroDivisionError
else
  let w_diff := (w mod tile_size) / 2 in
  let h_diff := (h mod tile_size) / 2 in
  if negb (w_diff =? 0) || negb (h_diff =? 0)
  then crop big (w_diff, h_diff, w - w_diff, h - h_diff)
  else Returns big.

(** [crop_square] *)
Definition crop_square (im : Image) : outcome Image :=
let w := width im in
let h := height im in
let s := Z.min w h in
let x := (w - s) / 2 in
let y := (h - s) / 2 in
crop im (x, y, x + s, y + s).

(** What [load_tiles] prints. *)
Inductive load_event : Type :=
| PrintReading
| PrintLoaded (count : nat)
| PrintTotal (count : nat).

(** The body of the [try] for one file: any exception in it skips the
  file. *)
Definition load_tile (file : outcome Image) (tile_size : Z) : outcome Image :=
im ← file;
im ← crop_square im;
resize im tile_size tile_size.

(** The tiles of the files that load, in the order of the files. *)
Definition tiles_of (files : list (outcome Image)) (tile_size : Z) : list Image :=
omap (fun file => match load_tile file tile_size with
                  | Returns im => Some im
                  | _ => None
                  end) files.

(** The walk over the files, in the order [os.walk] yields them. *)
Fixpoint load_tiles_walk (files : list (outcome Image)) (tile_size : Z)
  (tiles : list Image) : list load_event * outcome (list Image) :=
match files with
| [] => ([], Returns tiles)
| file :: files' =>
    match load_tile file tile_size with
    | Returns im =>
        let tiles := tiles ++ [im] in
        let '(evs, r) := load_tiles_walk files' tile_size tiles in
        ((if (length tiles mod 100 =? 0)%nat then [PrintLoaded (length tiles)] else [])
           ++ evs, r)
    | Raises _ => load_tiles_walk files' tile_size tiles
    | Unfinished => ([], Unfinished)
    end
end.

(** [load_tiles] *)
Definition load_tiles (files : list (outcome Image)) (tile_size : Z)
: list load_event * outcome (list Image) :=
let '(evs, r) := load_tiles_walk files tile_size [] in
match r with
| Returns tiles =>
    (PrintReading :: evs ++ [PrintTotal (length tiles)],
     if bool_decide (tiles = []) then Raises RuntimeError else Returns tiles)
| Raises e => (PrintReading :: evs, Raises e)
| Unfinished => (PrintReading :: evs, Unfinished)
end.

(** [main], from the parsed arguments and the decoded files on. *)
Inductive main_event : Type :=
| Loading (ev : load_event)
| Building (ev : event).

Definition main (attempts : nat) (image : Image) (files : list (outcome Image))
  (tile_size enlargement : Z) (mode : string) (seed : Z) (out : string)
: list main_event * outcome unit :=
match load_target image enlargement tile_size with
| Raises e => ([], Raises e)
| Unfinished => ([], Unfinished)
| Returns target_big =>
    let '(evs, r) := load_tiles files tile_size in
    match r with
    | Raises e => (Loading <$> evs, Raises e)
    | Unfinished => (Loading <$> evs, Unfinished)
    | Returns tiles =>
        let '(evs', r) :=
          build_mosaic_random save attempts target_big tiles mode seed out tile_size in
        ((Loading <$> evs) ++ (Building <$> evs'), r)
    end
end.
End Loading.

(** A resampler by nearest neighbour; it honours the contract of [resize]
    used below and stands for any resampler that does. *)
Definition resize_nearest (im : Image) (w h : Z) : outcome Image :=
  if (w <? 1) || (h <? 1) then Raises ValueError
  else Returns {| width := w; height := h;
                  data := raster w h (fun x y =>
                    getpixel im (x * width im / w) (y * height im / h)) |}.

(** An image filled with one colour. *)
Definition plain (w h : Z) (p : pixel) : Image :=
  {| width := w; height := h; data := raster w h (fun _ _ => p) |}.

(** Whether an event of a build is the saving of the mosaic. *)
Definition is_save (ev : event) : bool :=
  match ev with Save _ _ => true | _ => false end.

(** ** The cells of a build *)

(** The recoloured pixels the loop body computes for cell [(yi, xi)]: the
    first half of [build_cell], which does not depend on the mosaic. *)
Definition matched_cell (target : Image) (tiles_pixels : list (list pixel))
    (assignments : list Z) (mode : string) (tile_size x_count : Z)
    (yi xi : Z) : outcome (list pixel) :=
  let idx := yi * x_count + xi in
  let tx := xi * tile_size in
  let ty := yi * tile_size in
  patch ← crop target (tx, ty, tx + tile_size, ty + tile_size);
  match assignments !! Z.to_nat idx with
  | None => Raises IndexError
  | Some tile_idx =>
      match tiles_pixels !! Z.to_nat tile_idx with
      | None => Raises IndexError
      | Some tile_px => color_match_pixels tile_px (getdata patch) mode
      end
  end.

(** A fresh [tile_size] square after [putdata(matched_px)]. *)
Definition tile_image (tile_size : Z) (matched_px : list pixel) : Image :=
  {| width := tile_size; height := tile_size;
     data := matched_px ++ drop (length matched_px)
                             (raster tile_size tile_size (fun _ _ => black)) |}.

(** The pixel a cell holds at offset [(dx, dy)]. *)
Definition cell_pixel (target : Image) (tiles_pixels : list (list pixel))
    (assignments : list Z) (mode : string) (tile_size x_count : Z)
    (yi xi dx dy : Z) : pixel :=
  match matched_cell target tiles_pixels assignments mode tile_size x_count yi xi with
  | Returns matched_px => default black (matched_px !! Z.to_nat (dy * tile_size + dx))
  | _ => black
  end.

(** The cells in the order of the double loop. *)
Definition grid (y_count x_count : Z) : list (Z * Z) :=
  yi ← py_range y_count; xi ← py_range x_count; [(yi, xi)].

(** * Properties *)

(** ** Exchanging two elements *)

Lemma insert_found_perm {A} (t : list A) (j : nat) (a h : A) :
  t !! j = Some a -> a :: <[j := h]> t ≡ₚ h :: t.
Proof.
  revert j; induction t as [|b t IH]; intros [|j] Hj; simplify_eq/=.
  - apply perm_swap.
  - rewrite perm_swap, (IH j Hj). apply perm_swap.
Qed.

Lemma swap_perm {A} (x x' : list A) (i j : nat) :
  swap x i j = Returns x' -> x' ≡ₚ x.
Proof.
  unfold swap. revert x' i j; induction x as [|h t IH]; intros x' i j.
  - by destruct j.
  - destruct (_ !! j) as [a|] eqn:Hj; [|done].
    destruct (_ !! i) as [b|] eqn:Hi; [|done].
    intros [= <-]. destruct i as [|i], j as [|j]; simplify_eq/=.
    + done.
    + by apply insert_found_perm.
    + by apply insert_found_perm.
    + constructor. apply (IH _ i j). by rewrite Hj, Hi.
Qed.

Lemma swap_length {A} (x x' : list A) (i j : nat) :
  swap x i j = Returns x' -> length x' = length x.
Proof. intros Hs. by rewrite (Permutation_length (swap_perm _ _ _ _ Hs)). Qed.

Lemma swap_returns {A} (x : list A) (i j : nat) :
  (i < length x)%nat -> (j < length x)%nat -> returns (swap x i j).
Proof.
  intros Hi Hj. unfold swap.
  destruct (lookup_lt_is_Some_2 x i Hi) as [b ->].
  destruct (lookup_lt_is_Some_2 x j Hj) as [a ->]. by eexists.
Qed.

(** ** The shuffle is a permutation *)

Section ShuffleFacts.
Context {G : Type} `{Generator G}.

Lemma shuffle_from_perm {A} (i : nat) (x x' : list A) (g g' : G) :
  shuffle_from i x g = Returns (x', g') -> x' ≡ₚ x.
Proof.
  revert x g; induction i as [|i IH]; intros x g; simpl.
  - by intros [= <- _].
  - destruct (randbelow _ g) as [[j g1]| |]; simpl; try done.
    destruct (swap x (S i) j) as [x1| |] eqn:Hs; simpl; try done.
    intros Hr. rewrite (IH _ _ Hr). by eapply swap_perm.
Qed.

Lemma shuffle_perm {A} (x x' : list A) (g g' : G) :
  shuffle x g = Returns (x', g') -> x' ≡ₚ x.
Proof. apply shuffle_from_perm. Qed.

Lemma shuffle_from_returns {A} (i : nat) (x : list A) (g : G) :
  in_range_generator -> (i < length x \/ i = 0)%nat ->
  returns (shuffle_from i x g).
Proof.
  intros Hgen. revert x g; induction i as [|i IH]; intros x g Hi; simpl.
  - by eexists.
  - destruct (Hgen (S (S i)) g) as (j & g1 & -> & Hj); [lia|]. simpl.
    destruct (swap_returns x (S i) j) as [x1 Hs]; [lia..|].
    rewrite Hs. simpl. apply IH. rewrite (swap_length _ _ _ _ Hs). lia.
Qed.

Lemma shuffle_returns {A} (x : list A) (g : G) :
  in_range_generator -> returns (shuffle x g).
Proof. intros Hgen. apply shuffle_from_returns; [done|]. lia. Qed.
End ShuffleFacts.

(** ** Counting tile indices *)

Lemma py_count_perm (i : Z) (l l' : list Z) :
  l ≡ₚ l' -> py_count i l = py_count i l'.
Proof. intros Hp. unfold py_count. by rewrite Hp. Qed.

Lemma py_count_app (i : Z) (l l' : list Z) :
  py_count i (l ++ l') = (py_count i l + py_count i l')%nat.
Proof. unfold py_count. by rewrite filter_app, length_app. Qed.

Lemma py_count_take (i : Z) (n : nat) (l : list Z) :
  (py_count i (take n l) <= py_count i l)%nat.
Proof. rewrite <- (take_drop n l) at 2. rewrite py_count_app. lia. Qed.

Lemma py_count_seq (i : Z) (a n : nat) :
  py_count i (Z.of_nat <$> seq a n) =
  if decide (Z.of_nat a <= i < Z.of_nat a + Z.of_nat n) then 1%nat else 0%nat.
Proof.
  revert a; induction n as [|n IH]; intros a.
  - simpl. case_decide; [lia|done].
  - cbn [seq fmap list_fmap]. change (?x :: ?l) with ([x] ++ l).
    rewrite py_count_app. fold (fmap (M := list) Z.of_nat (seq (S a) n)).
    rewrite IH. unfold py_count. simpl. rewrite filter_cons, filter_nil.
    repeat case_decide; simpl; lia.
Qed.

Lemma py_count_range (i n : Z) :
  py_count i (py_range n) = if decide (0 <= i < n) then 1%nat else 0%nat.
Proof.
  unfold py_range. rewrite py_count_seq. repeat case_decide; lia.
Qed.

Lemma py_count_repeat (i : Z) (l : list Z) (k : Z) :
  py_count i (py_repeat l k) = (Z.to_nat k * py_count i l)%nat.
Proof.
  unfold py_repeat. induction (Z.to_nat k) as [|n IH]; simpl; [done|].
  rewrite py_count_app, IH. lia.
Qed.

Lemma py_repeat_length {A} (l : list A) (k : Z) :
  length (py_repeat l k) = (Z.to_nat k * length l)%nat.
Proof.
  unfold py_repeat. induction (Z.to_nat k) as [|n IH]; simpl; [done|].
  rewrite length_app, IH. lia.
Qed.

Lemma py_range_length (n : Z) : length (py_range n) = Z.to_nat n.
Proof. unfold py_range. by rewrite length_fmap, length_seq. Qed.

Lemma py_range_bounds (n : Z) : Forall (fun x => 0 <= x < n) (py_range n).
Proof.
  unfold py_range. apply Forall_fmap, Forall_forall. intros k Hk.
  apply elem_of_seq in Hk. simpl. lia.
Qed.

Lemma py_repeat_Forall {A} (P : A -> Prop) (l : list A) (k : Z) :
  Forall P l -> Forall P (py_repeat l k).
Proof.
  intros Hl. unfold py_repeat. induction (Z.to_nat k) as [|n IH]; simpl.
  - constructor.
  - by apply Forall_app.
Qed.

Lemma ceil_div_bounds (a b : Z) :
  0 < b -> a <= ceil_div a b * b < a + b.
Proof.
  intros Hb. unfold ceil_div.
  pose proof (Z.div_mod (- a) b ltac:(lia)).
  pose proof (Z.mod_pos_bound (- a) b Hb). nia.
Qed.

Lemma ceil_div_exact (a b : Z) :
  0 < b -> a mod b = 0 -> ceil_div a b = a / b.
Proof.
  intros Hb Hm. pose proof (ceil_div_bounds a b Hb).
  pose proof (Z.div_mod a b ltac:(lia)). nia.
Qed.

(** ** What [make_balanced_assignments] guarantees *)

Section Assignments.
Context {G : Type} `{Generator G}.

Lemma make_balanced_assignments_sound (N M : Z) (g g' : G) (l : list Z) :
  0 < N -> 0 <= M ->
  make_balanced_assignments N M g = Returns (l, g') ->
  Z.of_nat (length l) = M
  /\ Forall (fun x => 0 <= x < N) l
  /\ (forall i, Z.of_nat (py_count i l) <= ceil_div M N)
  /\ (M mod N = 0 -> forall i, 0 <= i < N -> Z.of_nat (py_count i l) = M / N).
Proof.
  intros HN HM. unfold make_balanced_assignments.
  destruct (Z.eqb_spec N 0) as [|_]; [lia|].
  pose proof (ceil_div_bounds M N HN) as Hc.
  set (repeats := ceil_div M N) in *.
  assert (Hr : 0 <= repeats) by nia.
  assert (He : M mod N = 0 -> repeats = M / N) by apply (ceil_div_exact M N HN).
  clearbody repeats.
  destruct (shuffle _ g) as [[base g1]| |] eqn:Hs; simpl; try done.
  intros [= <- <-]. apply shuffle_perm in Hs.
  assert (Hlen : length base = (Z.to_nat repeats * Z.to_nat N)%nat).
  { by rewrite (Permutation_length Hs), py_repeat_length, py_range_length. }
  assert (Hcnt : forall i, py_count i base =
            (Z.to_nat repeats * if decide (0 <= i < N)%Z then 1 else 0)%nat).
  { intros i. by rewrite (py_count_perm _ _ _ Hs), py_count_repeat, py_count_range. }
  unfold py_prefix. destruct (Z.leb_spec 0 M) as [_|]; [|lia].
  repeat split.
  - rewrite length_take. nia.
  - apply Forall_take. rewrite Hs. apply py_repeat_Forall, py_range_bounds.
  - intros i. pose proof (py_count_take i (Z.to_nat M) base) as Ht.
    rewrite Hcnt in Ht. case_decide; lia.
  - intros Hm i Hi. rewrite <- (He Hm).
    assert (M = repeats * N).
    { rewrite (He Hm). pose proof (Z.div_mod M N ltac:(lia)). lia. }
    rewrite take_ge by nia. rewrite Hcnt. case_decide; lia.
Qed.

Lemma make_balanced_assignments_returns (N M : Z) (g : G) :
  in_range_generator -> N <> 0 -> returns (make_balanced_assignments N M g).
Proof.
  intros Hgen HN. unfold make_balanced_assignments.
  destruct (Z.eqb_spec N 0) as [|_]; [done|].
  destruct (shuffle_returns (py_repeat (py_range N) (ceil_div M N)) g Hgen)
    as [[base g1] ->].
  by eexists.
Qed.
End Assignments.

(** ** Generators that never raise *)

Section SafeGenerators.
Context {G : Type} `{Generator G}.

Lemma shuffle_from_safe {A} (i : nat) (x : list A) (g : G) :
  safe_generator -> (i < length x \/ i = 0)%nat ->
  shuffle_from i x g <> Unfinished -> returns (shuffle_from i x g).
Proof.
  intros Hgen. revert x g; induction i as [|i IH]; intros x g Hi; simpl.
  - by eexists.
  - pose proof (Hgen (S (S i)) g ltac:(lia)) as Hj.
    destruct (randbelow _ g) as [[j g1]| |]; simpl; try done.
    destruct (swap_returns x (S i) j) as [x1 Hs]; [lia..|].
    rewrite Hs. simpl. apply IH. rewrite (swap_length _ _ _ _ Hs). lia.
Qed.

Lemma make_balanced_assignments_safe (N M : Z) (g : G) :
  safe_generator -> N <> 0 ->
  make_balanced_assignments N M g <> Unfinished ->
  returns (make_balanced_assignments N M g).
Proof.
  intros Hgen HN. unfold make_balanced_assignments.
  destruct (Z.eqb_spec N 0) as [|_]; [done|].
  pose proof (shuffle_from_safe
    (length (py_repeat (py_range N) (ceil_div M N)) - 1)
    (py_repeat (py_range N) (ceil_div M N)) g Hgen ltac:(lia)) as Hs.
  fold (shuffle (py_repeat (py_range N) (ceil_div M N)) g) in Hs.
  destruct (shuffle _ g) as [[base g1]| |]; simpl.
  - by eexists.
  - intros _. by destruct Hs as [? ?].
  - done.
Qed.
End SafeGenerators.

(** ** The Mersenne Twister as a generator *)

Lemma MT_randbelow_loop_safe (attempts : nat) (k n : Z) (st : MT.state) :
  match MT.randbelow_loop attempts k n st with
  | Returns (r, _) => r < n
  | Raises _ => False
  | Unfinished => True
  end.
Proof.
  revert st; induction attempts as [|a IH]; intros st; simpl; [done|].
  destruct (MT.getrandbits k st) as [r st1].
  destruct (Z.ltb_spec r n); [done|apply IH].
Qed.

Lemma MT_safe (attempts : nat) : safe_generator (H := MT_generator attempts).
Proof.
  intros n st Hn. unfold randbelow, MT_generator, MT._randbelow.
  pose proof (MT_randbelow_loop_safe attempts (MT.bit_length (Z.of_nat n))
                (Z.of_nat n) st) as Hl.
  destruct (MT.randbelow_loop _ _ _ st) as [[r st1]| |]; simpl; [lia|done..].
Qed.

Lemma agree_bind {A B} (m1 m2 : outcome A) (f1 f2 : A -> outcome B) :
  agree m1 m2 -> (forall a, agree (f1 a) (f2 a)) ->
  agree (m1 ≫= f1) (m2 ≫= f2).
Proof.
  intros [-> | [-> | ->]] Hf.
  - by left.
  - by right; left.
  - destruct m2 as [a| |]; simpl; [apply Hf|by right; right..].
Qed.

Lemma MT_randbelow_loop_agree (a1 a2 : nat) (k n : Z) (st : MT.state) :
  agree (MT.randbelow_loop a1 k n st) (MT.randbelow_loop a2 k n st).
Proof.
  revert a2 st; induction a1 as [|a1 IH]; intros [|a2] st; simpl.
  - by left.
  - by left.
  - by right; left.
  - destruct (MT.getrandbits k st) as [r st1].
    destruct (r <? n); [by right; right|apply IH].
Qed.

Lemma MT_randbelow_agree (a1 a2 n : nat) (st : MT.state) :
  agree (randbelow (Generator := MT_generator a1) n st)
        (randbelow (Generator := MT_generator a2) n st).
Proof.
  unfold randbelow, MT_generator, MT._randbelow.
  apply agree_bind; [apply MT_randbelow_loop_agree|].
  intros [r st1]. by right; right.
Qed.

Lemma MT_shuffle_from_agree {A} (a1 a2 i : nat) (x : list A) (st : MT.state) :
  agree (shuffle_from (H := MT_generator a1) i x st)
        (shuffle_from (H := MT_generator a2) i x st).
Proof.
  revert x st; induction i as [|i IH]; intros x st; simpl.
  - by right; right.
  - apply agree_bind; [apply MT_randbelow_agree|].
    intros [j st1]. apply agree_bind; [by right; right|].
    intros x1. apply IH.
Qed.

Lemma MT_make_balanced_assignments_agree (a1 a2 : nat) (N M : Z) (st : MT.state) :
  agree (make_balanced_assignments (H := MT_generator a1) N M st)
        (make_balanced_assignments (H := MT_generator a2) N M st).
Proof.
  unfold make_balanced_assignments. destruct (N =? 0); [by right; right|].
  apply agree_bind; [apply MT_shuffle_from_agree|].
  intros [base st1]. by right; right.
Qed.

Lemma scripted_in_range : in_range_generator (G := list nat).
Proof.
  intros n [|r g] Hn; do 2 eexists; (split; [reflexivity|]); [done|].
  apply Nat.mod_upper_bound. lia.
Qed.

Lemma in_range_safe {G} `{Generator G} : in_range_generator -> safe_generator.
Proof. intros Hgen n g Hn. by destruct (Hgen n g Hn) as (j & g' & -> & Hj). Qed.

Lemma balanced_within_bound (N d : Z) (l : list Z) :
  (forall i, Z.of_nat (py_count i l) <= d) -> balanced_within N d l.
Proof. intros Hd i j _ _. specialize (Hd i). lia. Qed.

(** ** C1: what the assignment generator guarantees *)

(** C1, as the code has it.  For [N > 0] and [M >= 0],
    [make_balanced_assignments N M] returns (with a generator that answers
    every draw as [_randbelow] promises) a sequence of length exactly [M]
    with every element in [[0, N)], in which no tile index occurs more than
    [ceil(M / N)] times; the counts of two indices differ by at most 1 when
    [M] is a multiple of [N] or [M <= N].  With the Mersenne Twister
    ([MT_safe]) the only other outcome is that the model's bound on the
    rejection loop is reached. *)
Theorem make_balanced_assignments_spec {G} `{Generator G} (N M : Z) (g : G) :
  safe_generator -> 0 < N -> 0 <= M ->
  (in_range_generator -> make_balanced_assignments N M g <> Unfinished)
  /\ (make_balanced_assignments N M g = Unfinished
      \/ exists l g', make_balanced_assignments N M g = Returns (l, g')
           /\ Z.of_nat (length l) = M
           /\ Forall (fun x => 0 <= x < N) l
           /\ (forall i, Z.of_nat (py_count i l) <= ceil_div M N)
           /\ (M mod N = 0 \/ M <= N -> balanced_within N 1 l)).
Proof.
  intros Hsafe HN HM. split.
  - intros Hgen. by destruct (make_balanced_assignments_returns N M g Hgen) as [? ->]; [lia|].
  - destruct (make_balanced_assignments N M g) as [[l g']| |] eqn:Hr; [right|exfalso|by left].
    + destruct (make_balanced_assignments_sound N M g g' l HN HM Hr)
        as (Hlen & Hrange & Hcount & Hexact).
      exists l, g'. repeat split; try done.
      intros [Hm|Hle].
      * intros i j Hi Hj. rewrite (Hexact Hm i Hi), (Hexact Hm j Hj). lia.
      * apply balanced_within_bound. intros i. specialize (Hcount i).
        pose proof (ceil_div_bounds M N HN). nia.
    + destruct (make_balanced_assignments_safe N M g Hsafe) as [? ?]; [lia|by rewrite Hr|].
      congruence.
Qed.

Lemma make_balanced_assignments_spec_witness :
  safe_generator (H := MT_generator 64) /\ 0 < 3 /\ 0 <= 6 /\
  (make_balanced_assignments (H := MT_generator 64) 3 6 (MT.Random 12345) = Unfinished
  \/ exists l g', make_balanced_assignments (H := MT_generator 64) 3 6 (MT.Random 12345)
                  = Returns (l, g')
       /\ Z.of_nat (length l) = 6
       /\ Forall (fun x => 0 <= x < 3) l
       /\ (forall i, Z.of_nat (py_count i l) <= ceil_div 6 3)
       /\ (6 mod 3 = 0 \/ 6 <= 3 -> balanced_within 3 1 l)).
Proof.
  split; [apply MT_safe|]. split; [lia|]. split; [lia|].
  apply (make_balanced_assignments_spec (H := MT_generator 64) 3 6 (MT.Random 12345));
    [apply MT_safe|lia|lia].
Defined.

(** The same for [assign], whose generator is the Mersenne Twister seeded
    inside the call. *)
Lemma assign_spec (attempts : nat) (N M seed : Z) :
  0 < N -> 0 <= M ->
  assign attempts N M seed = Unfinished
  \/ exists l, assign attempts N M seed = Returns l
       /\ Z.of_nat (length l) = M
       /\ Forall (fun x => 0 <= x < N) l
       /\ (forall i, Z.of_nat (py_count i l) <= ceil_div M N).
Proof.
  intros HN HM. unfold assign.
  destruct (make_balanced_assignments N M (MT.Random seed)) as [[l g']| |] eqn:Hr; simpl.
  - right. exists l. split; [done|].
    destruct (make_balanced_assignments_sound (H := MT_generator attempts)
                N M _ g' l HN HM Hr) as (Hlen & Hrange & Hcount & _).
    done.
  - destruct (make_balanced_assignments_safe (H := MT_generator attempts)
                N M (MT.Random seed) (MT_safe attempts)) as [? ?]; [lia|by rewrite Hr|].
    congruence.
  - by left.
Qed.

(** C1 as stated fails: with seed 1, three tiles and four cells the program
    returns [2, 0, 2, 0]; tiles 0 and 2 are used twice and tile 1 never. *)
Lemma assign_unbalanced :
  assign 64 3 4 1 = Returns [2; 0; 2; 0] /\ ~ balanced_within 3 1 [2; 0; 2; 0].
Proof.
  split; [by vm_compute|].
  intros Hb. specialize (Hb 0 1 ltac:(lia) ltac:(lia)). vm_compute in Hb. by apply Hb.
Qed.

(** ** C2: determinism *)

Lemma randbelow_in_step (attempts : nat) (w0 : world) (n : nat) (r : receiver)
    (st : MT.state) :
  bound_to w0 r st ->
  in_step w0 (randbelow (Generator := object_generator attempts) n r)
             (randbelow (Generator := MT_generator attempts) n st).
Proof.
  intros (Hself & Hgen & Hu). unfold randbelow at 1. unfold object_generator.
  rewrite Hgen, Hself, list_lookup_middle by done.
  destruct (randbelow n st) as [[j st']| |]; simpl; [|done..].
  split; [done|]. split; [done|]. split; [simpl|done].
  rewrite insert_app_r_alt by lia. by rewrite Nat.sub_diag.
Qed.

Lemma shuffle_from_in_step {A} (attempts : nat) (w0 : world) (i : nat) (x : list A)
    (r : receiver) (st : MT.state) :
  bound_to w0 r st ->
  in_step w0 (shuffle_from (H := object_generator attempts) i x r)
             (shuffle_from (H := MT_generator attempts) i x st).
Proof.
  revert x r st; induction i as [|i IH]; intros x r st Hb; simpl; [done|].
  pose proof (randbelow_in_step attempts w0 (S (S i)) r st Hb) as Hd.
  destruct (randbelow (Generator := object_generator attempts) (S (S i)) r)
    as [[j r']| |],
    (randbelow (Generator := MT_generator attempts) (S (S i)) st)
    as [[j' st']| |]; simpl in *; try done.
  destruct Hd as [<- Hb']. destruct (swap x (S i) j) as [x'| |]; simpl; [|done..].
  by apply IH.
Qed.

Lemma make_balanced_assignments_in_step (attempts : nat) (w0 : world) (N M : Z)
    (r : receiver) (st : MT.state) :
  bound_to w0 r st ->
  in_step w0 (make_balanced_assignments (H := object_generator attempts) N M r)
             (make_balanced_assignments (H := MT_generator attempts) N M st).
Proof.
  intros Hb. unfold make_balanced_assignments. destruct (N =? 0); [done|].
  unfold shuffle.
  pose proof (shuffle_from_in_step attempts w0
    (length (py_repeat (py_range N) (ceil_div M N)) - 1)
    (py_repeat (py_range N) (ceil_div M N)) r st Hb) as Hs.
  destruct (shuffle_from (H := object_generator attempts) _ _ r) as [[base r']| |],
    (shuffle_from (H := MT_generator attempts) _ _ st) as [[base' st']| |];
    simpl in *; try done.
  by destruct Hs as [<- Hb'].
Qed.

(** A call in any interpreter state returns what the function of
    [(N, M, seed)] returns, and leaves in the interpreter one more generator
    object and nothing else changed. *)
Lemma assign_call_spec (attempts : nat) (N M seed : Z) (w : world) :
  fst <$> assign_call attempts N M (Some seed) w = assign attempts N M seed
  /\ forall l w', assign_call attempts N M (Some seed) w = Returns (l, w') ->
       urandom w' = urandom w
       /\ take (length (generators w)) (generators w') = generators w.
Proof.
  unfold assign_call, assign. simpl.
  set (w1 := {| generators := generators w ++ [MT.Random seed]; urandom := urandom w |}).
  assert (Hb : bound_to w {| store := w1; self := length (generators w) |}
                 (MT.Random seed)) by done.
  pose proof (make_balanced_assignments_in_step attempts w N M _ _ Hb) as Hs.
  destruct (make_balanced_assignments (H := object_generator attempts) N M _)
    as [[l r]| |],
    (make_balanced_assignments (H := MT_generator attempts) N M (MT.Random seed))
    as [[l' st]| |]; simpl in *; try done.
  - destruct Hs as (<- & _ & Hg & Hu). split; [done|].
    intros l0 w' [= <- <-]. split; [done|]. by rewrite Hg, take_app_length.
  - by subst.
Qed.

Lemma assign_agree (a1 a2 : nat) (N M seed : Z) :
  agree (assign a1 N M seed) (assign a2 N M seed).
Proof.
  unfold assign.
  destruct (MT_make_balanced_assignments_agree a1 a2 N M (MT.Random seed))
    as [-> | [-> | ->]]; [by left|by right; left|by right; right].
Qed.

Lemma assign_never_raises (attempts : nat) (N M seed : Z) (e : exn) :
  0 < N -> 0 <= M -> assign attempts N M seed <> Raises e.
Proof.
  intros HN HM Hr.
  destruct (assign_spec attempts N M seed HN HM) as [Hu | (l & Hl & _)]; congruence.
Qed.

(** C2.  Two calls of [assign(N, M, seed)] with identical arguments return
    identical sequences, whatever else the interpreter holds: in two
    different states of the other generators and of the entropy source, and
    one call after the other in the state the first call has left.  The
    sequence is that of the function [assign] of [(N, M, seed)]; the call
    reads no other generator and no entropy, and changes neither.  For
    [N > 0] and [M >= 0] the call does not raise, and the bound put on the
    rejection loop of [_randbelow] has no part in the result: two runs that
    both come to an end under different bounds return the same sequence. *)
Theorem assign_call_deterministic (attempts : nat) (N M seed : Z) (w1 w2 : world) :
  fst <$> assign_call attempts N M (Some seed) w1
  = fst <$> assign_call attempts N M (Some seed) w2
  /\ fst <$> assign_call attempts N M (Some seed) w1 = assign attempts N M seed
  /\ (forall l w1', assign_call attempts N M (Some seed) w1 = Returns (l, w1') ->
        fst <$> assign_call attempts N M (Some seed) w1' = Returns l
        /\ urandom w1' = urandom w1
        /\ take (length (generators w1)) (generators w1') = generators w1)
  /\ (0 < N -> 0 <= M ->
        (forall e, fst <$> assign_call attempts N M (Some seed) w1 <> Raises e)
        /\ forall attempts',
             agree (fst <$> assign_call attempts N M (Some seed) w1)
                   (fst <$> assign_call attempts' N M (Some seed) w2)).
Proof.
  destruct (assign_call_spec attempts N M seed w1) as [H1 Hframe].
  destruct (assign_call_spec attempts N M seed w2) as [H2 _].
  split; [by rewrite H1, H2|]. split; [done|]. split.
  - intros l w1' Hr. destruct (Hframe l w1' Hr) as [Hu Hg]. split; [|done].
    destruct (assign_call_spec attempts N M seed w1') as [-> _].
    rewrite <- H1, Hr. done.
  - intros HN HM. rewrite H1. split.
    + intros e. by apply assign_never_raises.
    + intros attempts'.
      destruct (assign_call_spec attempts' N M seed w2) as [-> _].
      apply assign_agree.
Qed.

Lemma assign_call_deterministic_witness :
  let w1 := {| generators := [MT.Random 0]; urandom := [[1]] |} in
  let w2 := {| generators := []; urandom := [] |} in
  let w1' := {| generators := [MT.Random 0; MT.Random 7]; urandom := [[1]] |} in
  fst <$> assign_call 64 3 4 (Some 1) w1 = Returns [2; 0; 2; 0]
  /\ fst <$> assign_call 64 3 4 (Some 1) w2 = Returns [2; 0; 2; 0]
  /\ match assign_call 64 3 4 (Some 1) w1 with
     | Returns (l, w) =>
         fst <$> assign_call 64 3 4 (Some 1) w = Returns l
         /\ urandom w = [[1]] /\ take 1 (generators w) = [MT.Random 0]
     | _ => False
     end
  /\ (forall e, fst <$> assign_call 64 3 4 (Some 1) w1 <> Raises e)
  /\ fst <$> assign_call 64 5 3 (Some 7) w1' = fst <$> assign_call 64 5 3 (Some 7) w2.
Proof.
  intros w1 w2 w1'.
  destruct (assign_call_deterministic 64 3 4 1 w1 w2) as (Heq & Hfun & Hseq & Hfuel).
  assert (H1 : fst <$> assign_call 64 3 4 (Some 1) w1 = Returns [2; 0; 2; 0]).
  { rewrite Hfun. vm_compute. reflexivity. }
  split; [exact H1|]. split; [rewrite <- Heq; exact H1|].
  split.
  { destruct (assign_call 64 3 4 (Some 1) w1) as [[l w]| |] eqn:Hr;
      [exact (Hseq l w eq_refl)|discriminate H1..]. }
  split; [exact (proj1 (Hfuel ltac:(lia) ltac:(lia)))|].
  exact (proj1 (assign_call_deterministic 64 5 3 7 w1' w2)).
Defined.

(** Determinism is a property of these two lines, not of the model: a
    generator created without a seed takes its state from the entropy
    source, and the same arguments then give different sequences. *)
Example unseeded_call_differs :
  let w1 := {| generators := [MT.Random 0]; urandom := [[1]] |} in
  let w2 := {| generators := [MT.Random 0]; urandom := [[2]] |} in
  fst <$> assign_call 64 3 4 None w1 = Returns [2; 0; 2; 0]
  /\ fst <$> assign_call 64 3 4 None w2 = Returns [2; 0; 1; 1].
Proof. split; by vm_compute. Qed.

(** The generator is stateful: the sequence depends on the state it is in,
    and a second call on the generator left by a first one gives another
    sequence.  [assign] starts every call from [random.Random(seed)]. *)
Example generator_reuse_differs :
  let first := make_balanced_assignments (H := MT_generator 64) 3 4 (MT.Random 1) in
  match first with
  | Returns (l1, rng) =>
      match make_balanced_assignments (H := MT_generator 64) 3 4 rng with
      | Returns (l2, _) => l1 = [2; 0; 2; 0] /\ l2 = [0; 1; 2; 1]
      | _ => False
      end
  | _ => False
  end.
Proof. by vm_compute. Qed.

(** ** C9: a build without tiles *)

Lemma make_balanced_assignments_no_tiles {G} `{Generator G} (M : Z) (g : G) :
  make_balanced_assignments 0 M g = Raises ZeroDivisionError.
Proof. reflexivity. Qed.

(** C9, as the code has it.  A build with an empty tile set fails for
    every target and every parameter, before the generator is drawn from and
    before any cell is processed or anything is saved: all it does is print
    the grid line (not even that when the tile size is 0).  The exception
    is the [ZeroDivisionError] of [total_cells / num_tiles]. *)
Theorem build_mosaic_random_no_tiles (save : Image -> string -> outcome unit)
    (attempts : nat) (target_big : Image)
    (mode : string) (seed : Z) (out_path : string) (tile_size : Z) :
  build_mosaic_random save attempts target_big [] mode seed out_path tile_size =
  (if tile_size =? 0 then []
   else [PrintGrid (width target_big / tile_size) (height target_big / tile_size)
           (width target_big / tile_size * (height target_big / tile_size))],
   Raises ZeroDivisionError).
Proof. unfold build_mosaic_random. by destruct (tile_size =? 0). Qed.

(** C9 as stated fails: the error of a build without tiles is not an
    [EmptyTileSet]. *)
Lemma build_no_tiles_not_EmptyTileSet :
  let target := {| width := 20; height := 20; data := replicate 400 (gray 128) |} in
  snd (build_mosaic_random save_by_extension 64 target [] "meanstd" 12345
         "mosaic.jpeg" 10)
    = Raises ZeroDivisionError
  /\ snd (build_mosaic_random save_by_extension 64 target [] "meanstd" 12345
            "mosaic.jpeg" 10)
    <> Raises EmptyTileSet.
Proof. split; [reflexivity|discriminate]. Qed.

(** ** Clamping and conversion *)






(** ** Arrays and their channels *)

Lemma chan_row_zip (c : channel) (f : F32.float32 -> F32.float32 -> F32.float32) (a b : row) :
  chan c (row_zip f a b) = f (chan c a) (chan c b).
Proof. destruct a as [[a0 a1] a2], b as [[b0 b1] b2]. by destruct c. Qed.

Lemma chan_row_map (c : channel) (f : F32.float32 -> F32.float32) (a : row) :
  chan c (row_map f a) = f (chan c a).
Proof. destruct a as [[a0 a1] a2]. by destruct c. Qed.

Lemma chan_foldl_axis0 (c : channel) (a : array) (acc : row) :
  chan c (foldl (row_zip F32.add) acc a) = foldl F32.add (chan c acc) (chan c <$> a).
Proof.
  revert acc; induction a as [|r a IH]; intros acc; simpl; [done|].
  by rewrite IH, chan_row_zip.
Qed.

Lemma chan_sum_axis0 (c : channel) (a : array) :
  chan c (sum_axis0 a) = F32.sum (chan c <$> a).
Proof. unfold sum_axis0, F32.sum. rewrite chan_foldl_axis0. by destruct c. Qed.

Lemma chan_mean_axis0 (c : channel) (a : array) :
  chan c (mean_axis0 a) = mean1 (chan c <$> a).
Proof.
  unfold mean_axis0, mean1, mean_with.
  by rewrite chan_row_map, chan_sum_axis0, length_fmap.
Qed.

Lemma chan_std_axis0 (c : channel) (a : array) :
  chan c (std_axis0 a) = std1 (chan c <$> a).
Proof.
  unfold std_axis0, std1, std_with.
  rewrite chan_row_map, chan_sum_axis0, length_fmap. do 3 f_equal.
  rewrite <- !list_fmap_compose. apply list_fmap_ext. intros _ r _. simpl.
  by rewrite !chan_row_zip, chan_mean_axis0.
Qed.

Lemma chan_pixel_row (c : channel) (p : pixel) :
  chan c (pixel_row p) = F32.of_Z (chan c p).
Proof. destruct p as [[r g] b]. by destruct c. Qed.

Lemma chan_pixel_rows (c : channel) (pixels : list pixel) :
  chan c <$> (pixel_row <$> pixels) = column c pixels.
Proof.
  unfold column. rewrite <- list_fmap_compose.
  apply list_fmap_ext. intros _ p _. apply chan_pixel_row.
Qed.

Lemma _to_np_rgb_returns (pixels : list pixel) :
  forallb valid_pixel pixels = true ->
  _to_np_rgb pixels = Returns (pixel_row <$> pixels).
Proof. intros Hv. unfold _to_np_rgb. by rewrite Hv. Qed.

Lemma _to_np_rgb_raises (pixels : list pixel) (e : exn) :
  _to_np_rgb pixels = Raises e -> e = ValueError /\ forallb valid_pixel pixels = false.
Proof. unfold _to_np_rgb. destruct (forallb _ _); [done|]. by intros [= <-]. Qed.

Lemma chan_clip_back_row (c : channel) (r : row) :
  chan c (clip_back_row r) = clip_back_value (chan c r).
Proof. destruct r as [[r0 r1] r2]. by destruct c. Qed.

Lemma chan_clip_back (c : channel) (arr : array) :
  chan c <$> _clip_back arr = clip_back_value <$> (chan c <$> arr).
Proof.
  unfold _clip_back. rewrite <- !list_fmap_compose.
  apply list_fmap_ext. intros _ r _. apply chan_clip_back_row.
Qed.

Lemma matmul_T_length (a : array) (M : row * row * row) :
  length (matmul_T a M) = length a.
Proof. unfold matmul_T. by rewrite length_fmap. Qed.

Lemma set_column0_spec (yuv : array) (y : list F32.float32) :
  length y = length yuv ->
  length (set_column0 yuv y) = length yuv
  /\ column0 (set_column0 yuv y) = y
  /\ (fun p => (chan G p, chan B p)) <$> set_column0 yuv y
     = (fun p => (chan G p, chan B p)) <$> yuv.
Proof.
  unfold set_column0, column0.
  revert y; induction yuv as [|[[y0 u] v] yuv IH]; intros [|y' y] Hl; simplify_eq/=.
  - done.
  - destruct (IH y Hl) as (-> & -> & ->). done.
Qed.

Lemma luma_match_length (t g : array) : length (luma_match t g) = length t.
Proof.
  unfold luma_match.
  destruct (set_column0_spec (_rgb_to_yuv t)
    ((fun y => F32.add (F32.mul y (luma_gain (column0 (_rgb_to_yuv t)) (column0 (_rgb_to_yuv g))))
                 (luma_bias (column0 (_rgb_to_yuv t)) (column0 (_rgb_to_yuv g))))
       <$> column0 (_rgb_to_yuv t))) as (-> & _).
  - unfold column0. by rewrite !length_fmap.
  - apply matmul_T_length.
Qed.

Lemma color_match_array_length (t g : array) (mode : string) :
  length (color_match_array t g mode) = length t.
Proof.
  unfold color_match_array. destruct (String.eqb mode "luma").
  - unfold _yuv_to_rgb. by rewrite matmul_T_length, luma_match_length.
  - destruct (String.eqb mode "mean"); by rewrite length_fmap.
Qed.

Lemma color_match_pixels_returns (tile_pixels target_pixels : list pixel) (mode : string) :
  forallb valid_pixel tile_pixels = true ->
  forallb valid_pixel target_pixels = true ->
  color_match_pixels tile_pixels target_pixels mode =
  Returns (_clip_back (color_match_array (pixel_row <$> tile_pixels)
                         (pixel_row <$> target_pixels) mode)).
Proof.
  intros Ht Hg. unfold color_match_pixels.
  by rewrite (_to_np_rgb_returns _ Ht), (_to_np_rgb_returns _ Hg).
Qed.

Lemma clip_back_length (t g : array) (mode : string) :
  length (_clip_back (color_match_array t g mode)) = length t.
Proof. unfold _clip_back. by rewrite length_fmap, color_match_array_length. Qed.

(** ** Facts on float32 values that need no rounding analysis *)

Lemma sub_diag (x : F32.float32) : F32.is_finite x = true -> F32.sub x x = F32.zero.
Proof.
  destruct x as [[]|[]| |s m e]; try done. intros _.
  unfold F32.sub, SFsub. by rewrite Z.sub_diag.
Qed.

Lemma add_zero_r (x : F32.float32) : x <> S754_zero true -> F32.add x F32.zero = x.
Proof. by destruct x as [[]|[]| |s m e]. Qed.

Lemma mul_zero_l (y : F32.float32) :
  F32.is_finite y = true -> exists s, F32.mul F32.zero y = S754_zero s.
Proof. destruct y as [[]|[]| |s m e]; try done; by eexists. Qed.

Lemma clip_back_add_zero_l (s : bool) (y : F32.float32) :
  clip_back_value (F32.add (S754_zero s) y) = clip_back_value y.
Proof. by destruct s, y as [[]|[]| |s' m e]. Qed.

Lemma is_byte_range (v : Z) : is_byte v = true -> v ∈ py_range 256.
Proof.
  unfold is_byte, py_range. intros [H0 H1]%andb_prop.
  apply list_elem_of_fmap. exists (Z.to_nat v). split; [lia|].
  apply elem_of_seq. lia.
Qed.

Lemma of_byte_spec (v : Z) :
  is_byte v = true ->
  clip_back_value (F32.of_Z v) = v
  /\ F32.is_finite (F32.of_Z v) = true
  /\ F32.of_Z v <> S754_zero true.
Proof.
  intros Hv%is_byte_range. revert v Hv. apply Forall_forall.
  apply (Forall_impl (fun v => (clip_back_value (F32.of_Z v) =? v)
                               && F32.is_finite (F32.of_Z v)
                               && negb (match F32.of_Z v with
                                        | S754_zero true => true
                                        | _ => false
                                        end) = true)).
  - apply Forall_fold_right. by vm_compute.
  - intros v [[H1 H2]%andb_prop H3]%andb_prop. split; [lia|]. split; [done|].
    intros Hz. by rewrite Hz in H3.
Qed.

Lemma valid_pixel_chan (c : channel) (p : pixel) :
  valid_pixel p = true -> is_byte (chan c p) = true.
Proof.
  destruct p as [[r g] b]. simpl. intros [[Hr Hg]%andb_prop Hb]%andb_prop.
  by destruct c.
Qed.

Lemma pixel_eq (p q : pixel) : (forall c, chan c p = chan c q) -> p = q.
Proof.
  destruct p as [[r g] b], q as [[r' g'] b']. intros H.
  pose proof (H R). pose proof (H G). pose proof (H B). simpl in *. congruence.
Qed.





(** ** The array of every mode, pixel by pixel *)







(** ** C8: no check of the buffer lengths *)

(** C8, as the code has it.  [color_match_pixels] does not compare the
    lengths of its two buffers: for buffers of 8-bit pixels, of equal or of
    different lengths, and for every mode string, it returns a buffer as
    long as the source (the statistics of the target are taken over the
    target's own pixels). *)
Theorem color_match_pixels_total (tile_pixels target_pixels : list pixel) (mode : string) :
  forallb valid_pixel tile_pixels = true ->
  forallb valid_pixel target_pixels = true ->
  exists out, color_match_pixels tile_pixels target_pixels mode = Returns out
    /\ length out = length tile_pixels.
Proof.
  intros Ht Hg. rewrite (color_match_pixels_returns _ _ mode Ht Hg).
  eexists. split; [done|]. by rewrite clip_back_length, length_fmap.
Qed.

Lemma color_match_pixels_total_witness :
  forallb valid_pixel [gray 10; gray 20; gray 30] = true
  /\ forallb valid_pixel [gray 0; gray 100] = true
  /\ exists out, color_match_pixels [gray 10; gray 20; gray 30] [gray 0; gray 100] "luma"
                 = Returns out
       /\ length out = length [gray 10; gray 20; gray 30].
Proof.
  split; [reflexivity|]. split; [reflexivity|].
  apply (color_match_pixels_total [gray 10; gray 20; gray 30] [gray 0; gray 100] "luma");
    reflexivity.
Defined.

(** The only exception [color_match_pixels] raises is the [ValueError] of
    [bytearray], for a component outside [range(0, 256)]. *)
Lemma color_match_pixels_raises (tile_pixels target_pixels : list pixel) (mode : string) (e : exn) :
  color_match_pixels tile_pixels target_pixels mode = Raises e -> e = ValueError.
Proof.
  unfold color_match_pixels.
  destruct (_to_np_rgb tile_pixels) as [t| |] eqn:Ht; simpl.
  - destruct (_to_np_rgb target_pixels) as [g| |] eqn:Hg; simpl; [done| |done].
    intros [= <-]. by apply _to_np_rgb_raises in Hg as [-> _].
  - intros [= <-]. by apply _to_np_rgb_raises in Ht as [-> _].
  - done.
Qed.

(** C8 as stated fails: a source of one pixel and a target of two are
    accepted, and a buffer is returned. *)
Lemma color_match_pixels_length_mismatch :
  length [gray 10] <> length [gray 0; gray 100]
  /\ color_match_pixels [gray 10] [gray 0; gray 100] "meanstd" = Returns [gray 50]
  /\ color_match_pixels [gray 10] [gray 0; gray 100] "meanstd" <> Raises ShapeMismatch.
Proof. split; [done|]. split; [by vm_compute|by vm_compute]. Qed.

(** ** C7: the final clamp and conversion *)




(** ** C4: the mean mode *)

(** C4, as the code has it.  In mode ["mean"] every channel is treated on
    its own: each source value is shifted by (target mean - source mean) of
    that channel, in float32, and the result is clamped to [[0, 255]] and
    truncated.  Nothing is promised about the mean of the output, which the
    clamp and the truncation move away from the target's. *)
Theorem color_match_pixels_mean (tile_pixels target_pixels : list pixel) :
  forallb valid_pixel tile_pixels = true ->
  forallb valid_pixel target_pixels = true ->
  exists out, color_match_pixels tile_pixels target_pixels "mean" = Returns out
    /\ length out = length tile_pixels
    /\ forall c, chan c <$> out =
         (fun v => clip_back_value
            (F32.add (F32.of_Z v)
               (F32.sub (channel_mean c target_pixels) (channel_mean c tile_pixels))))
         <$> (chan c <$> tile_pixels).
Proof.
  intros Ht Hg. rewrite (color_match_pixels_returns _ _ "mean" Ht Hg).
  eexists. split; [done|]. split; [by rewrite clip_back_length, length_fmap|].
  intros c. rewrite chan_clip_back. unfold color_match_array. simpl.
  unfold channel_mean. rewrite <- !chan_pixel_rows, <- !chan_mean_axis0.
  rewrite <- !list_fmap_compose. apply list_fmap_ext. intros _ p _. simpl.
  by rewrite !chan_row_zip, chan_pixel_row.
Qed.

Lemma color_match_pixels_mean_witness :
  forallb valid_pixel [gray 0; gray 255] = true
  /\ forallb valid_pixel [gray 255; gray 255] = true
  /\ exists out, color_match_pixels [gray 0; gray 255] [gray 255; gray 255] "mean" = Returns out
       /\ length out = length [gray 0; gray 255]
       /\ forall c, chan c <$> out =
            (fun v => clip_back_value
               (F32.add (F32.of_Z v)
                  (F32.sub (channel_mean c [gray 255; gray 255])
                           (channel_mean c [gray 0; gray 255]))))
            <$> (chan c <$> [gray 0; gray 255]).
Proof.
  split; [reflexivity|]. split; [reflexivity|].
  apply (color_match_pixels_mean [gray 0; gray 255] [gray 255; gray 255]); reflexivity.
Defined.

(** C4 as stated fails: a black and a white pixel recoloured towards an
    all-white target become 127 and 255 (the shift by 127.5 takes the white
    pixel to 382.5, which is clamped); the output's mean is 191, the
    target's 255. *)
Lemma mean_mode_misses_target_mean :
  let A := [gray 0; gray 255] in
  let B := [gray 255; gray 255] in
  length A = length B
  /\ color_match_pixels A B "mean" = Returns [gray 127; gray 255]
  /\ channel_mean R [gray 127; gray 255] = F32.of_Z 191
  /\ channel_mean R B = F32.of_Z 255
  /\ ~ within 63 (channel_mean R [gray 127; gray 255]) (channel_mean R B).
Proof.
  repeat split; try by vm_compute.
  intros (_ & Hlo & _). by vm_compute in Hlo.
Qed.

(** ** C3: the meanstd mode *)




(** ** C5: the luma mode *)




(** ** What holds when the float32 statistics are exact

    The two lemmas below need no rounding analysis: they assume of the
    statistics computed in float32 what exact arithmetic would give (a
    finite mean; for a constant source, a mean equal to the constant). *)

(** In mode ["mean"], a buffer matched to itself comes back unchanged
    whenever its float32 channel means are finite. *)
Lemma mean_mode_self (pixels : list pixel) :
  forallb valid_pixel pixels = true ->
  (forall c, F32.is_finite (channel_mean c pixels) = true) ->
  color_match_pixels pixels pixels "mean" = Returns pixels.
Proof.
  intros Hv Hfin. rewrite (color_match_pixels_returns _ _ "mean" Hv Hv). f_equal.
  unfold color_match_array, _clip_back. simpl. rewrite <- !list_fmap_compose.
  etransitivity; [|apply list_fmap_id]. apply list_fmap_ext. intros i p Hp. simpl.
  assert (Hvp : valid_pixel p = true).
  { rewrite forallb_forall in Hv. apply Hv, list_elem_of_In, list_elem_of_lookup. eauto. }
  apply pixel_eq. intros c.
  rewrite chan_clip_back_row, !chan_row_zip, chan_mean_axis0, chan_pixel_rows, chan_pixel_row.
  fold (channel_mean c pixels). rewrite (sub_diag _ (Hfin c)).
  destruct (of_byte_spec (chan c p) (valid_pixel_chan c p Hvp)) as (Hb & _ & Hnz).
  by rewrite (add_zero_r _ Hnz).
Qed.

(** In mode ["meanstd"], a channel in which every source pixel has the
    value [v] comes back as the target's mean of that channel, clamped and
    truncated, whenever the float32 mean of the source channel is [v] itself
    and the gain is finite. *)
Lemma meanstd_constant_value (tile_pixels target_pixels : list pixel) (c : channel) (v : Z) :
  forallb valid_pixel tile_pixels = true ->
  forallb valid_pixel target_pixels = true ->
  Forall (fun p => chan c p = v) tile_pixels ->
  channel_mean c tile_pixels = F32.of_Z v ->
  F32.is_finite (F32.div (channel_std c target_pixels)
                   (F32.add (channel_std c tile_pixels) EPS)) = true ->
  exists out, color_match_pixels tile_pixels target_pixels "meanstd" = Returns out
    /\ chan c <$> out =
       replicate (length tile_pixels) (clip_back_value (channel_mean c target_pixels)).
Proof.
  intros Ht Hg Hc Hmean Hgain.
  rewrite (color_match_pixels_returns _ _ "meanstd" Ht Hg). eexists. split; [done|].
  rewrite chan_clip_back. unfold color_match_array. simpl.
  rewrite <- !list_fmap_compose.
  etransitivity; [|apply (const_fmap (fun _ : pixel =>
                            clip_back_value (channel_mean c target_pixels))); done].
  apply list_fmap_ext. intros i p Hp. simpl.
  rewrite !chan_row_zip, chan_row_map, !chan_mean_axis0, !chan_std_axis0,
    !chan_pixel_rows, chan_pixel_row.
  fold (channel_mean c tile_pixels) (channel_mean c target_pixels)
       (channel_std c tile_pixels) (channel_std c target_pixels).
  rewrite Forall_forall in Hc. rewrite (Hc p) by (apply list_elem_of_lookup; eauto).
  rewrite Hmean.
  assert (Hvp : valid_pixel p = true).
  { rewrite forallb_forall in Ht. apply Ht, list_elem_of_In, list_elem_of_lookup. eauto. }
  destruct (of_byte_spec (chan c p) (valid_pixel_chan c p Hvp)) as (_ & Hf & _).
  rewrite (Hc p) in Hf by (apply list_elem_of_lookup; eauto).
  rewrite (sub_diag _ Hf). destruct (mul_zero_l _ Hgain) as [s ->].
  apply clip_back_add_zero_l.
Qed.

(** ** Matching a buffer to itself, and large constant buffers *)

(** The conversion truncates, so a value that the float32 arithmetic leaves
    just below an integer loses a unit: a buffer matched to itself is not
    always returned as it was. *)
Example meanstd_self_loses_a_unit :
  color_match_pixels [gray 0; gray 1] [gray 0; gray 1] "meanstd"
  = Returns [gray 0; gray 0].
Proof. by vm_compute. Qed.

Example luma_self_loses_a_unit :
  let A := [(222, 12, 240); (66, 37, 185); (97, 9, 236)] in
  color_match_pixels A A "luma" = Returns [(222, 11, 240); (66, 36, 185); (97, 8, 236)].
Proof. by vm_compute. Qed.

(** Accumulated in float32, the mean of a constant column is the constant
    as long as the running sum stays below [2^24]: 65793 values of 255 have
    mean 255, 65795 of them do not. *)
Example mean_of_constant_column :
  mean1 (replicate (Z.to_nat 65793) (F32.of_Z 255)) = F32.of_Z 255
  /\ mean1 (replicate (Z.to_nat 65795) (F32.of_Z 255)) <> F32.of_Z 255.
Proof. split; [by vm_compute|]. by vm_compute. Qed.

(** * Further properties of the program *)

(** ** The assignment generator at its edges *)





Lemma py_range_NoDup (n : Z) : NoDup (py_range n).
Proof.
  unfold py_range. apply NoDup_fmap_2; [|apply NoDup_seq].
  intros a b. lia.
Qed.

(** X2.  With at least as many tiles as cells no tile is used twice. *)
Theorem make_balanced_assignments_distinct {G} `{Generator G} (N M : Z) (g : G) :
  in_range_generator -> 0 < N -> 0 <= M <= N ->
  exists l g', make_balanced_assignments N M g = Returns (l, g') /\ NoDup l.
Proof.
  intros Hgen HN HM.
  destruct (make_balanced_assignments_returns N M g Hgen ltac:(lia)) as [[l g'] Hr].
  exists l, g'. split; [done|]. revert Hr. unfold make_balanced_assignments.
  destruct (Z.eqb_spec N 0) as [|_]; [lia|].
  destruct (shuffle _ g) as [[base g1]| |] eqn:Hs; simpl; try done.
  intros [= <- <-]. apply shuffle_perm in Hs.
  assert (Hnd : NoDup base).
  { rewrite Hs. pose proof (ceil_div_bounds M N HN).
    assert (Hc : ceil_div M N = 0 \/ ceil_div M N = 1) by nia.
    unfold py_repeat. destruct Hc as [-> | ->]; simpl.
    - constructor.
    - rewrite app_nil_r. apply py_range_NoDup. }
  unfold py_prefix. destruct (0 <=? M); eapply sublist_NoDup; eauto using sublist_take.
Qed.

Lemma make_balanced_assignments_distinct_witness :
  in_range_generator (G := list nat) /\ 0 < 5 /\ 0 <= 3 <= 5
  /\ exists l g', make_balanced_assignments 5 3 [7; 1; 4; 4]%nat = Returns (l, g')
       /\ NoDup l.
Proof.
  split; [apply scripted_in_range|]. split; [lia|]. split; [lia|].
  apply (make_balanced_assignments_distinct 5 3 [7; 1; 4; 4]%nat);
    [apply scripted_in_range|lia|lia].
Defined.

(** X3.  When the cell count is a multiple of the tile count the sequence is a
    rearrangement of [0 .. N-1] repeated [M / N] times: every tile is used
    exactly [M / N] times. *)
Theorem make_balanced_assignments_multiple {G} `{Generator G} (N M : Z) (g : G) :
  in_range_generator -> 0 < N -> 0 <= M -> M mod N = 0 ->
  exists l g', make_balanced_assignments N M g = Returns (l, g')
    /\ l ≡ₚ py_repeat (py_range N) (M / N)
    /\ forall i, 0 <= i < N -> Z.of_nat (py_count i l) = M / N.
Proof.
  intros Hgen HN HM Hm.
  destruct (make_balanced_assignments_returns N M g Hgen ltac:(lia)) as [[l g'] Hr].
  exists l, g'. split; [done|]. split.
  - revert Hr. unfold make_balanced_assignments.
    destruct (Z.eqb_spec N 0) as [|_]; [lia|].
    rewrite (ceil_div_exact M N HN Hm).
    destruct (shuffle _ g) as [[base g1]| |] eqn:Hs; simpl; try done.
    intros [= <- <-]. apply shuffle_perm in Hs. rewrite <- Hs.
    unfold py_prefix. destruct (Z.leb_spec 0 M); [|lia].
    rewrite take_ge; [done|].
    rewrite (Permutation_length Hs), py_repeat_length, py_range_length.
    pose proof (Z.div_mod M N ltac:(lia)).
    assert (0 <= M / N) by (apply Z.div_pos; lia). nia.
  - by apply (make_balanced_assignments_sound N M g g' l HN HM Hr).
Qed.

Lemma make_balanced_assignments_multiple_witness :
  in_range_generator (G := list nat) /\ 0 < 3 /\ 0 <= 6 /\ 6 mod 3 = 0
  /\ exists l g', make_balanced_assignments 3 6 [7; 1; 4; 4]%nat = Returns (l, g')
       /\ l ≡ₚ py_repeat (py_range 3) (6 / 3)
       /\ forall i, 0 <= i < 3 -> Z.of_nat (py_count i l) = 6 / 3.
Proof.
  split; [apply scripted_in_range|]. split; [lia|]. split; [lia|]. split; [reflexivity|].
  apply (make_balanced_assignments_multiple 3 6 [7; 1; 4; 4]%nat);
    [apply scripted_in_range|lia|lia|reflexivity].
Defined.

(** X4.  The seed is used through its absolute value: [seed] and [-seed] give
    the same assignment. *)
Theorem assign_seed_sign (attempts : nat) (N M seed : Z) :
  assign attempts N M (- seed) = assign attempts N M seed.
Proof. unfold assign, MT.Random, MT.seed_key. by rewrite Z.abs_opp. Qed.

(** ** [color_match_pixels]: errors, modes, shape *)

(** X5.  The only failure is the [ValueError] of [bytearray], and it is raised
    exactly when some component of one of the two buffers is outside
    [range(0, 256)]. *)
Theorem color_match_pixels_raises_iff (tile_pixels target_pixels : list pixel)
    (mode : string) :
  (color_match_pixels tile_pixels target_pixels mode = Raises ValueError
   <-> forallb valid_pixel tile_pixels && forallb valid_pixel target_pixels = false)
  /\ (forall e, color_match_pixels tile_pixels target_pixels mode = Raises e ->
        e = ValueError)
  /\ color_match_pixels tile_pixels target_pixels mode <> Unfinished.
Proof.
  unfold color_match_pixels, _to_np_rgb.
  destruct (forallb valid_pixel tile_pixels), (forallb valid_pixel target_pixels);
    simpl; repeat split; try done; by intros e [= <-].
Qed.

(** X6.  The mode is not validated: every string other than ["luma"] and
    ["mean"] selects the meanstd transform. *)
Theorem color_match_pixels_other_mode (tile_pixels target_pixels : list pixel)
    (mode : string) :
  mode <> "luma"%string -> mode <> "mean"%string ->
  color_match_pixels tile_pixels target_pixels mode
  = color_match_pixels tile_pixels target_pixels "meanstd".
Proof.
  intros Hl Hm. unfold color_match_pixels, color_match_array.
  apply String.eqb_neq in Hl, Hm. by rewrite Hl, Hm.
Qed.

Lemma color_match_pixels_other_mode_witness :
  "median"%string <> "luma"%string /\ "median"%string <> "mean"%string
  /\ color_match_pixels [gray 10; gray 30] [gray 0; gray 100] "median"
     = color_match_pixels [gray 10; gray 30] [gray 0; gray 100] "meanstd".
Proof.
  split; [discriminate|]. split; [discriminate|].
  apply (color_match_pixels_other_mode [gray 10; gray 30] [gray 0; gray 100] "median");
    discriminate.
Defined.




(** X8.  [_to_np_rgb] followed by [_clip_back] gives back the buffer: the
    conversion to float32 and back loses nothing on 8-bit pixels. *)
Theorem clip_back_to_np_rgb (pixels : list pixel) :
  forallb valid_pixel pixels = true ->
  _clip_back <$> _to_np_rgb pixels = Returns pixels.
Proof.
  intros Hv. rewrite (_to_np_rgb_returns _ Hv). simpl. unfold fmap at 1. simpl. f_equal.
  unfold _clip_back. rewrite <- list_fmap_compose.
  etransitivity; [|apply list_fmap_id]. apply list_fmap_ext. intros i p Hp. simpl.
  assert (Hvp : valid_pixel p = true).
  { rewrite forallb_forall in Hv. apply Hv, list_elem_of_In, list_elem_of_lookup. eauto. }
  apply pixel_eq. intros c. rewrite chan_clip_back_row, chan_pixel_row.
  apply of_byte_spec. by apply valid_pixel_chan.
Qed.

Lemma clip_back_to_np_rgb_witness :
  forallb valid_pixel [(0, 128, 255); (17, 0, 3)] = true
  /\ _clip_back <$> _to_np_rgb [(0, 128, 255); (17, 0, 3)]
     = Returns [(0, 128, 255); (17, 0, 3)].
Proof.
  split; [reflexivity|].
  apply (clip_back_to_np_rgb [(0, 128, 255); (17, 0, 3)]); reflexivity.
Defined.

(** ** Images as rasters *)

Lemma py_range_lookup (n : Z) (i : nat) :
  (i < Z.to_nat n)%nat -> py_range n !! i = Some (Z.of_nat i).
Proof.
  intros Hi. unfold py_range. rewrite list_lookup_fmap, lookup_seq_lt by done. done.
Qed.

Lemma raster_rows (w h : Z) (f : Z -> Z -> pixel) :
  raster w h f = mjoin ((fun y => (fun x => f x y) <$> py_range w) <$> py_range h).
Proof.
  unfold raster. induction (py_range h) as [|y ys IH]; [done|]. csimpl.
  rewrite IH. f_equal; clear; induction (py_range w) as [|x xs IH]; try done; csimpl;
    by rewrite IH.
Qed.

Lemma raster_length (w h : Z) (f : Z -> Z -> pixel) :
  length (raster w h f) = (Z.to_nat h * Z.to_nat w)%nat.
Proof.
  rewrite raster_rows, <- (py_range_length h).
  induction (py_range h) as [|y ys IH]; [done|]. csimpl.
  by rewrite length_app, IH, length_fmap, py_range_length.
Qed.

Lemma raster_lookup (w h : Z) (f : Z -> Z -> pixel) (x y : Z) :
  0 <= x < w -> 0 <= y < h ->
  raster w h f !! Z.to_nat (y * w + x) = Some (f x y).
Proof.
  intros Hx Hy. rewrite raster_rows.
  replace (Z.to_nat (y * w + x)) with (Z.to_nat y * Z.to_nat w + Z.to_nat x)%nat by nia.
  apply (join_lookup_Some_same_length' (Z.to_nat w)).
  - apply Forall_fmap, Forall_forall. intros y' _. simpl.
    by rewrite length_fmap, py_range_length.
  - lia.
  - exists ((fun x => f x y) <$> py_range w). split.
    + rewrite list_lookup_fmap, py_range_lookup by lia. simpl. by rewrite Z2Nat.id by lia.
    + rewrite list_lookup_fmap, py_range_lookup by lia. simpl. by rewrite Z2Nat.id by lia.
Qed.

Lemma raster_ext (w h : Z) (f g : Z -> Z -> pixel) :
  (forall x y, 0 <= x < w -> 0 <= y < h -> f x y = g x y) ->
  raster w h f = raster w h g.
Proof.
  intros Hfg. rewrite !raster_rows. f_equal.
  apply list_fmap_ext. intros i y Hy. apply list_fmap_ext. intros j x Hx.
  apply list_elem_of_lookup_2 in Hy, Hx.
  pose proof (proj1 (Forall_forall _ _) (py_range_bounds h) y Hy).
  pose proof (proj1 (Forall_forall _ _) (py_range_bounds w) x Hx).
  by apply Hfg.
Qed.

Lemma getpixel_raster (w h : Z) (f : Z -> Z -> pixel) (x y : Z) :
  getpixel {| width := w; height := h; data := raster w h f |} x y
  = if (0 <=? x) && (x <? w) && (0 <=? y) && (y <? h) then f x y else black.
Proof.
  unfold getpixel. simpl.
  destruct ((0 <=? x) && (x <? w) && (0 <=? y) && (y <? h)) eqn:Hb; [|done].
  rewrite raster_lookup by lia. done.
Qed.

Lemma raster_getpixel (im : Image) :
  well_formed im -> raster (width im) (height im) (getpixel im) = data im.
Proof.
  intros (Hw & Hh & Hl). apply list_eq. intros i.
  destruct (decide (i < length (data im))%nat) as [Hi|Hi].
  - assert (0 < width im) by nia.
    set (x := Z.of_nat i mod width im). set (y := Z.of_nat i / width im).
    pose proof (Z.div_mod (Z.of_nat i) (width im) ltac:(lia)).
    pose proof (Z.mod_pos_bound (Z.of_nat i) (width im) ltac:(lia)).
    assert (0 <= y < height im).
    { split; [apply Z.div_pos; lia|]. apply Z.div_lt_upper_bound; nia. }
    replace i with (Z.to_nat (y * width im + x)) at 1 by (subst x y; lia).
    rewrite raster_lookup by (subst x; lia).
    unfold getpixel.
    replace ((0 <=? x) && (x <? width im) && (0 <=? y) && (y <? height im)) with true
      by (subst x; symmetry; rewrite !andb_true_iff; lia).
    replace (Z.to_nat (y * width im + x)) with i by (subst x y; lia).
    destruct (lookup_lt_is_Some_2 (data im) i Hi) as [p ->]. done.
  - rewrite !lookup_ge_None_2; [done|lia|]. rewrite raster_length. nia.
Qed.

Lemma raster_well_formed (w h : Z) (f : Z -> Z -> pixel) :
  0 <= w -> 0 <= h ->
  well_formed {| width := w; height := h; data := raster w h f |}.
Proof. intros Hw Hh. repeat split; simpl; try done. rewrite raster_length. nia. Qed.

(** ** [crop_square] *)

(** X9.  On a well-formed image [crop_square] returns the centred square of
    side [min(w, h)]: the box lies inside the image, so every pixel of the
    result is a pixel of the source and nothing is padded; a square image
    comes back unchanged. *)
Theorem crop_square_spec (im : Image) :
  well_formed im ->
  let s := Z.min (width im) (height im) in
  let x0 := (width im - s) / 2 in
  let y0 := (height im - s) / 2 in
  exists sq, crop_square im = Returns sq
    /\ width sq = s /\ height sq = s /\ well_formed sq
    /\ (forall x y, 0 <= x < s -> 0 <= y < s ->
          getpixel sq x y = getpixel im (x0 + x) (y0 + y)
          /\ 0 <= x0 + x < width im /\ 0 <= y0 + y < height im)
    /\ (width im = height im -> sq = im).
Proof.
  intros Hwf s x0 y0. pose proof Hwf as (Hw & Hh & Hl).
  unfold crop_square. fold s. fold x0. fold y0. unfold crop.
  assert (Hx0 : 0 <= x0 <= width im - s).
  { subst x0. split; [apply Z.div_pos; lia|].
    apply Z.div_le_upper_bound; lia. }
  assert (Hy0 : 0 <= y0 <= height im - s).
  { subst y0. split; [apply Z.div_pos; lia|].
    apply Z.div_le_upper_bound; lia. }
  assert (Hs : 0 <= s) by lia.
  replace ((x0 + s <? x0) || (y0 + s <? y0)) with false
    by (symmetry; apply orb_false_iff; lia).
  replace (x0 + s - x0) with s by lia. replace (y0 + s - y0) with s by lia.
  eexists. split; [done|]. simpl. split; [done|]. split; [done|].
  split; [by apply raster_well_formed|]. split.
  - intros x y Hx Hy. rewrite getpixel_raster.
    replace ((0 <=? x) && (x <? s) && (0 <=? y) && (y <? s)) with true
      by (symmetry; rewrite !andb_true_iff; lia).
    split; [done|lia].
  - intros Heq. assert (Hsw : s = width im) by lia.
    assert (Hx00 : x0 = 0) by (unfold x0; rewrite Hsw, Z.sub_diag; done).
    assert (Hy00 : y0 = 0) by (unfold y0; rewrite Hsw, Heq, Z.sub_diag; done).
    clearbody x0 y0 s. destruct im as [w h d]. simpl in *.
    subst h s x0 y0. f_equal.
    etransitivity;
      [|exact (raster_getpixel {| width := w; height := w; data := d |} Hwf)].
    by apply raster_ext.
Qed.

Lemma crop_square_spec_witness :
  let im := {| width := 3; height := 2;
               data := [gray 1; gray 2; gray 3; gray 4; gray 5; gray 6] |} in
  well_formed im
  /\ exists sq, crop_square im = Returns sq
       /\ width sq = 2 /\ height sq = 2 /\ well_formed sq.
Proof.
  intros im. assert (Hwf : well_formed im) by (repeat split; simpl; lia).
  split; [exact Hwf|].
  destruct (crop_square_spec im Hwf) as (sq & Hr & Hw & Hh & Hs & _).
  exists sq. split; [exact Hr|]. split; [exact Hw|]. split; [exact Hh|exact Hs].
Defined.

(** ** [load_target], [load_tiles] and [main] *)


Lemma resize_nearest_sized (im : Image) (w h : Z) (im' : Image) :
  resize_nearest im w h = Returns im' ->
  width im' = w /\ height im' = h /\ well_formed im'.
Proof.
  unfold resize_nearest. destruct ((w <? 1) || (h <? 1)) eqn:Hb; [done|].
  apply orb_false_iff in Hb as [Hw Hh]. intros [= <-]. simpl.
  split; [done|]. split; [done|]. apply raster_well_formed; lia.
Qed.

Section Loading_facts.
Variable resize : Image -> Z -> Z -> outcome Image.
Variable save : Image -> string -> outcome unit.

(** What the program relies on of [Image.resize]: an image it returns has
    the size asked for. *)
Hypothesis resize_sized : forall im w h im',
  resize im w h = Returns im' ->
  width im' = w /\ height im' = h /\ well_formed im'.



Lemma load_tile_sized (file : outcome Image) (tile_size : Z) (im : Image) :
  load_tile resize file tile_size = Returns im ->
  width im = tile_size /\ height im = tile_size /\ well_formed im.
Proof.
  unfold load_tile. destruct file as [im0| |]; simpl; [|done..].
  destruct (crop_square im0) as [sq| |]; simpl; [|done..].
  apply resize_sized.
Qed.

Lemma tiles_of_sized (files : list (outcome Image)) (tile_size : Z) :
  Forall (fun t => width t = tile_size /\ height t = tile_size /\ well_formed t)
    (tiles_of resize files tile_size).
Proof.
  unfold tiles_of. induction files as [|f files IH]; simpl; [done|].
  destruct (load_tile resize f tile_size) eqn:Hf; simpl; [|done..].
  constructor; [|done]. by apply load_tile_sized in Hf.
Qed.

Lemma load_tiles_walk_spec (files : list (outcome Image)) (tile_size : Z)
    (tiles : list Image) :
  match snd (load_tiles_walk resize files tile_size tiles) with
  | Returns t => t = tiles ++ tiles_of resize files tile_size
  | Raises _ => False
  | Unfinished => Exists (fun f => load_tile resize f tile_size = Unfinished) files
  end.
Proof.
  revert tiles. unfold tiles_of.
  induction files as [|f files IH]; intros tiles; simpl.
  - by rewrite app_nil_r.
  - destruct (load_tile resize f tile_size) as [im|e|] eqn:Hf; simpl.
    + specialize (IH (tiles ++ [im])).
      destruct (load_tiles_walk resize files tile_size (tiles ++ [im])) as [evs r].
      simpl in *. destruct r as [t|e|]; [|done|by apply Exists_cons_tl].
      by rewrite IH, <- app_assoc.
    + specialize (IH tiles).
      destruct (load_tiles_walk resize files tile_size tiles) as [evs r].
      simpl in *. destruct r as [t|e'|]; [done|done|by apply Exists_cons_tl].
    + by apply Exists_cons_hd.
Qed.

Lemma load_tiles_result (files : list (outcome Image)) (tile_size : Z) :
  Forall (fun f => load_tile resize f tile_size <> Unfinished) files ->
  snd (load_tiles resize files tile_size)
    = (if bool_decide (tiles_of resize files tile_size = [])
       then Raises RuntimeError else Returns (tiles_of resize files tile_size)).
Proof.
  intros Hfin. unfold load_tiles.
  pose proof (load_tiles_walk_spec files tile_size []) as Hw.
  destruct (load_tiles_walk resize files tile_size []) as [evs r]. simpl in *.
  destruct r as [t|e|]; [by subst t|done|].
  apply Exists_exists in Hw as (f & Hf & Hu).
  by destruct (proj1 (Forall_forall _ _) Hfin f Hf).
Qed.

(** X11.  [load_tiles] keeps, in order, the tile of every file that decodes,
    crops and resizes, and skips every file on which one of these raises.
    It prints the number kept last, raises [RuntimeError] when no file
    was kept and returns the tiles otherwise; each tile returned is a
    square of side [tile_size]. *)
Theorem load_tiles_spec (files : list (outcome Image)) (tile_size : Z) :
  Forall (fun f => load_tile resize f tile_size <> Unfinished) files ->
  let tiles := tiles_of resize files tile_size in
  snd (load_tiles resize files tile_size)
    = (if bool_decide (tiles = []) then Raises RuntimeError else Returns tiles)
  /\ last (fst (load_tiles resize files tile_size)) = Some (PrintTotal (length tiles))
  /\ Forall (fun t => width t = tile_size /\ height t = tile_size /\ well_formed t) tiles.
Proof.
  intros Hfin tiles. split; [by apply load_tiles_result|].
  split; [|apply tiles_of_sized].
  unfold load_tiles. pose proof (load_tiles_walk_spec files tile_size []) as Hw.
  destruct (load_tiles_walk resize files tile_size []) as [evs r]. simpl in *.
  destruct r as [t|e|]; [|done|].
  - subst t. cbn [fst app]. by rewrite app_comm_cons, last_snoc.
  - apply Exists_exists in Hw as (f & Hf & Hu).
    by destruct (proj1 (Forall_forall _ _) Hfin f Hf).
Qed.

(** X12.  [main] reaches the build only with a prepared target and at least one
    tile: whenever an event of the build shows in its trace,
    [load_target] has returned and [load_tiles] has returned a non-empty
    list, the tiles of the files that load. *)
Theorem main_build_needs_tiles (attempts : nat) (image : Image)
    (files : list (outcome Image)) (tile_size enlargement : Z)
    (mode : string) (seed : Z) (out : string) (ev : event) :
  Building ev ∈ fst (main resize save attempts image files tile_size enlargement
                        mode seed out) ->
  exists target tiles,
    load_target resize image enlargement tile_size = Returns target
    /\ snd (load_tiles resize files tile_size) = Returns tiles
    /\ tiles <> [] /\ tiles = tiles_of resize files tile_size.
Proof.
  unfold main. destruct (load_target resize image enlargement tile_size)
    as [target|e|]; simpl; [|by intros ?%elem_of_nil..].
  unfold load_tiles. pose proof (load_tiles_walk_spec files tile_size []) as Hw.
  destruct (load_tiles_walk resize files tile_size []) as [evs r]. simpl in *.
  assert (Hno : forall l : list load_event, Building ev ∉ Loading <$> l).
  { intros l (x & Hx & _)%list_elem_of_fmap. done. }
  destruct r as [t|e|]; simpl;
    [|done|by intros H; destruct (Hno (PrintReading :: evs) H)].
  destruct (bool_decide (t = [])) eqn:Ht;
    [by intros H; destruct (Hno (PrintReading :: evs ++ [PrintTotal (length t)]) H)|].
  apply bool_decide_eq_false in Ht. intros _.
  exists target, t. by repeat split.
Qed.

(** X13.  With a tile size of 0 [main] stops in [load_target], at the remainder
    by the tile size that follows the resize: it prints nothing and
    neither reads a tile nor builds, and unless the resize itself failed
    the exception is [ZeroDivisionError]. *)
Theorem main_zero_tile_size (attempts : nat) (image : Image)
    (files : list (outcome Image)) (enlargement : Z)
    (mode : string) (seed : Z) (out : string) :
  main resize save attempts image files 0 enlargement mode seed out
  = ([], _ ← resize image (width image * enlargement) (height image * enlargement);
         Raises ZeroDivisionError).
Proof.
  unfold main, load_target. cbv zeta.
  by destruct (resize image (width image * enlargement) (height image * enlargement)).
Qed.
End Loading_facts.


Lemma load_tiles_spec_witness :
  let files := [Returns (plain 3 2 (gray 7)); Raises (Exception "UnidentifiedImageError");
                Returns (plain 1 4 (gray 9))] in
  (forall im w h im', resize_nearest im w h = Returns im' ->
     width im' = w /\ height im' = h /\ well_formed im')
  /\ Forall (fun f => load_tile resize_nearest f 2 <> Unfinished) files
  /\ snd (load_tiles resize_nearest files 2)
     = Returns [plain 2 2 (gray 7); plain 2 2 (gray 9)].
Proof.
  intros files. split; [exact resize_nearest_sized|].
  assert (Hfin : Forall (fun f => load_tile resize_nearest f 2 <> Unfinished) files)
    by (repeat constructor; vm_compute; discriminate).
  split; [exact Hfin|].
  exact (proj1 (load_tiles_spec resize_nearest resize_nearest_sized files 2 Hfin)).
Defined.

Lemma main_build_needs_tiles_witness :
  let files := [Returns (plain 1 1 (gray 7))] in
  let image := plain 2 2 (gray 10) in
  Building (PrintGrid 2 2 4)
    ∈ fst (main resize_nearest save_by_extension 64 image files 1 1 "mean" 5 "mosaic.jpeg")
  /\ exists target tiles,
       load_target resize_nearest image 1 1 = Returns target
       /\ snd (load_tiles resize_nearest files 1) = Returns tiles
       /\ tiles <> [] /\ tiles = tiles_of resize_nearest files 1.
Proof.
  intros files image.
  assert (Hin : Building (PrintGrid 2 2 4)
    ∈ fst (main resize_nearest save_by_extension 64 image files 1 1 "mean" 5 "mosaic.jpeg")).
  { vm_compute. do 2 constructor 2. constructor 1. }
  split; [exact Hin|].
  exact (main_build_needs_tiles resize_nearest save_by_extension 64 image files 1 1 "mean" 5
           "mosaic.jpeg" (PrintGrid 2 2 4) Hin).
Defined.

(** ** The build *)

Lemma div_eq_iff (x ts q : Z) :
  0 < ts -> x / ts = q <-> q * ts <= x < q * ts + ts.
Proof.
  intros Hts. pose proof (Z.div_mod x ts ltac:(lia)).
  pose proof (Z.mod_pos_bound x ts Hts). split; [intros <-; lia|].
  intros Hq. symmetry. apply (Z.div_unique_pos x ts q (x - q * ts)); lia.
Qed.

Lemma grid_elem (y_count x_count yi xi : Z) :
  (yi, xi) ∈ grid y_count x_count <-> 0 <= yi < y_count /\ 0 <= xi < x_count.
Proof.
  assert (Hr : forall n k, k ∈ py_range n <-> 0 <= k < n).
  { intros n k. unfold py_range. rewrite list_elem_of_fmap. split.
    - intros (i & -> & Hi%elem_of_seq). lia.
    - intros Hk. exists (Z.to_nat k). rewrite elem_of_seq. lia. }
  unfold grid. rewrite list_elem_of_bind. split.
  - intros (y & (x & Hx & Hxr)%list_elem_of_bind & Hyr).
    apply list_elem_of_singleton in Hx as [= -> ->]. by rewrite <- !Hr.
  - intros [Hy Hx]. exists yi. rewrite Hr. split; [|done].
    apply list_elem_of_bind. exists xi. rewrite Hr. split; [|done].
    by apply list_elem_of_singleton.
Qed.

Lemma getpixel_tile_image (tile_size : Z) (matched_px : list pixel) (dx dy : Z) :
  0 <= dx < tile_size -> 0 <= dy < tile_size ->
  getpixel (tile_image tile_size matched_px) dx dy
  = default black (matched_px !! Z.to_nat (dy * tile_size + dx)).
Proof.
  intros Hx Hy. unfold getpixel, tile_image. simpl.
  replace ((0 <=? dx) && (dx <? tile_size) && (0 <=? dy) && (dy <? tile_size))
    with true by (symmetry; rewrite !andb_true_iff; lia).
  set (i := Z.to_nat (dy * tile_size + dx)).
  destruct (decide (i < length matched_px)%nat) as [Hi|Hi].
  - by rewrite lookup_app_l.
  - rewrite lookup_app_r, lookup_drop by lia.
    replace (length matched_px + (i - length matched_px))%nat with i by lia.
    subst i. rewrite raster_lookup by lia.
    by rewrite lookup_ge_None_2 by lia.
Qed.

Lemma build_cell_inv (target : Image) (tiles_pixels : list (list pixel))
    (assignments : list Z) (mode : string) (tile_size x_count total_cells : Z)
    (yi xi : Z) (m : Image) (d : Z) (m' : Image) (d' : Z) (evs : list event) :
  build_cell target tiles_pixels assignments mode tile_size x_count total_cells
    yi xi (m, d) = Returns (m', d', evs) ->
  exists matched_px,
    matched_cell target tiles_pixels assignments mode tile_size x_count yi xi
      = Returns matched_px
    /\ m' = {| width := width m; height := height m;
               data := raster (width m) (height m) (fun x y =>
                 if (xi * tile_size <=? x) && (x <? xi * tile_size + tile_size)
                    && (yi * tile_size <=? y) && (y <? yi * tile_size + tile_size)
                 then getpixel (tile_image tile_size matched_px)
                        (x - xi * tile_size) (y - yi * tile_size)
                 else getpixel m x y) |}
    /\ d' = d + 1
    /\ Forall (fun ev => is_save ev = false) evs.
Proof.
  unfold build_cell, matched_cell. cbv zeta.
  destruct (crop target _) as [patch| |]; simpl; [|done..].
  destruct (assignments !! _) as [tile_idx|]; [|done].
  destruct (tiles_pixels !! _) as [tile_px|]; [|done].
  destruct (color_match_pixels tile_px (getdata patch) mode) as [matched_px| |];
    simpl; [|done..].
  unfold Image_new. destruct ((tile_size <? 0) || (tile_size <? 0)); simpl; [done|].
  unfold putdata. simpl. destruct (_ <? _)%nat; simpl; [done|].
  destruct (negb _); simpl; [done|].
  intros [= <- <- <-]. exists matched_px. repeat split; try done.
  destruct (_ =? 0); by repeat constructor.
Qed.

Lemma build_cells_events (cell : Z -> Z -> Image * Z -> outcome (Image * Z * list event))
    (cells : list (Z * Z)) (st : Image * Z) :
  (forall yi xi st m d evs, cell yi xi st = Returns (m, d, evs) ->
     Forall (fun ev => is_save ev = false) evs) ->
  Forall (fun ev => is_save ev = false) (fst (build_cells cell cells st)).
Proof.
  intros Hcell. revert st. induction cells as [|[yi xi] cells IH]; intros st; simpl.
  - constructor.
  - destruct (cell yi xi st) as [[[m d] evs]| |] eqn:Hc; simpl; [|constructor..].
    specialize (IH (m, d)). destruct (build_cells cell cells (m, d)) as [evs' r].
    simpl in *. apply Forall_app. split; [|done]. by apply (Hcell _ _ _ _ _ _ Hc).
Qed.

Lemma build_cells_inv (target : Image) (tiles_pixels : list (list pixel))
    (assignments : list Z) (mode : string) (tile_size x_count total_cells : Z)
    (cells : list (Z * Z)) (m : Image) (d : Z) (m' : Image) (d' : Z) :
  0 < tile_size -> well_formed m ->
  snd (build_cells (build_cell target tiles_pixels assignments mode tile_size
                      x_count total_cells) cells (m, d)) = Returns (m', d') ->
  width m' = width m /\ height m' = height m /\ well_formed m'
  /\ (forall yi xi, (yi, xi) ∈ cells ->
        returns (matched_cell target tiles_pixels assignments mode tile_size
                   x_count yi xi))
  /\ (forall x y, 0 <= x < width m -> 0 <= y < height m ->
        getpixel m' x y =
        if bool_decide ((y / tile_size, x / tile_size) ∈ cells)
        then cell_pixel target tiles_pixels assignments mode tile_size x_count
               (y / tile_size) (x / tile_size) (x mod tile_size) (y mod tile_size)
        else getpixel m x y).
Proof.
  intros Hts. revert m d.
  induction cells as [|[yi xi] cells IH]; intros m d Hwf; cbn [build_cells].
  - intros [= <- <-]. repeat split; try done; try apply Hwf.
    intros yi xi H. by apply elem_of_nil in H.
  - destruct (build_cell target tiles_pixels assignments mode tile_size x_count
                total_cells yi xi (m, d)) as [[[m1 d1] evs]| |] eqn:Hc;
      simpl; [|done..].
    apply build_cell_inv in Hc as (matched_px & Hm & -> & -> & _).
    set (m1 := {| width := width m |}) in *.
    assert (Hwf1 : well_formed m1) by (apply raster_well_formed; apply Hwf).
    specialize (IH m1 (d + 1) Hwf1).
    destruct (build_cells _ cells (m1, d + 1)) as [evs' r]. simpl in *.
    intros ->. destruct (IH eq_refl) as (Hw & Hh & Hwf' & Hret & Hpx).
    split; [done|]. split; [done|]. split; [done|]. split.
    + intros yi' xi' [[= -> ->]|Hin]%elem_of_cons; [by eexists|by apply Hret].
    + intros x y Hx Hy. rewrite (Hpx x y Hx Hy).
      destruct (bool_decide ((y / tile_size, x / tile_size) ∈ cells)) eqn:Hin.
      * apply bool_decide_eq_true in Hin.
        rewrite bool_decide_eq_true_2; [done|by apply list_elem_of_further].
      * apply bool_decide_eq_false in Hin. subst m1. rewrite getpixel_raster.
        replace ((0 <=? x) && (x <? width m) && (0 <=? y) && (y <? height m)) with true
          by (symmetry; rewrite !andb_true_iff; lia).
        pose proof (div_eq_iff x tile_size xi Hts) as Hxi.
        pose proof (div_eq_iff y tile_size yi Hts) as Hyi.
        destruct (decide (x / tile_size = xi /\ y / tile_size = yi)) as [[Hex Hey]|Hne].
        -- rewrite bool_decide_eq_true_2
             by (rewrite Hex, Hey; apply list_elem_of_here).
           replace ((xi * tile_size <=? x) && (x <? xi * tile_size + tile_size)
                    && (yi * tile_size <=? y) && (y <? yi * tile_size + tile_size))
             with true by (symmetry; rewrite !andb_true_iff; lia).
           pose proof (Z.div_mod x tile_size ltac:(lia)).
           pose proof (Z.div_mod y tile_size ltac:(lia)).
           pose proof (Z.mod_pos_bound x tile_size Hts).
           pose proof (Z.mod_pos_bound y tile_size Hts).
           replace (x - xi * tile_size) with (x mod tile_size) by lia.
           replace (y - yi * tile_size) with (y mod tile_size) by lia.
           rewrite getpixel_tile_image by lia.
           unfold cell_pixel. by rewrite Hex, Hey, Hm.
        -- rewrite bool_decide_eq_false_2.
           2:{ intros [[= ? ?]|?]%elem_of_cons; [|done]. by apply Hne. }
           replace ((xi * tile_size <=? x) && (x <? xi * tile_size + tile_size)
                    && (yi * tile_size <=? y) && (y <? yi * tile_size + tile_size))
             with false; [done|].
           symmetry. apply not_true_iff_false. rewrite !andb_true_iff. lia.
Qed.

Lemma build_cells_size (target : Image) (tiles_pixels : list (list pixel))
    (assignments : list Z) (mode : string) (tile_size x_count total_cells : Z)
    (cells : list (Z * Z)) (m : Image) (d : Z) (m' : Image) (d' : Z) :
  well_formed m ->
  snd (build_cells (build_cell target tiles_pixels assignments mode tile_size
                      x_count total_cells) cells (m, d)) = Returns (m', d') ->
  width m' = width m /\ height m' = height m /\ well_formed m'.
Proof.
  revert m d. induction cells as [|[yi xi] cells IH]; intros m d Hwf; cbn [build_cells].
  - by intros [= <- <-].
  - destruct (build_cell target tiles_pixels assignments mode tile_size x_count
                total_cells yi xi (m, d)) as [[[m1 d1] evs]| |] eqn:Hc;
      simpl; [|done..].
    apply build_cell_inv in Hc as (matched_px & Hm & -> & -> & _).
    set (m1 := {| width := width m |}) in *.
    assert (Hwf1 : well_formed m1) by (apply raster_well_formed; apply Hwf).
    specialize (IH m1 (d + 1) Hwf1).
    destruct (build_cells _ cells (m1, d + 1)) as [evs' r]. simpl in *.
    intros ->. by destruct (IH eq_refl) as (Hw & Hh & Hwf').
Qed.

Lemma save_and_report_spec (save : Image -> string -> outcome unit)
    (mosaic : Image) (out_path : string) :
  save_and_report save mosaic out_path
  = (Save out_path mosaic ::
       match save mosaic out_path with
       | Returns _ => [PrintFinished out_path]
       | _ => []
       end,
     save mosaic out_path).
Proof. unfold save_and_report. by destruct (save mosaic out_path) as [[]| |]. Qed.

(** X14.  [mosaic.save] is called at most once and as the last action of the
    build: either the build fails before it, and then the output path is
    never touched, or every cell has been processed, the mosaic (of the
    size of the target) is handed to [save], the outcome of the build is
    the outcome of that call, and the "Finished" line is printed only if
    the call returned. *)
Theorem build_mosaic_random_saves_last (save : Image -> string -> outcome unit)
    (attempts : nat) (target_big : Image)
    (tiles : list Image) (mode : string) (seed : Z) (out_path : string)
    (tile_size : Z) :
  let run := build_mosaic_random save attempts target_big tiles mode seed out_path
               tile_size in
  (Forall (fun ev => is_save ev = false) (fst run) /\ snd run <> Returns ())
  \/ exists pre mosaic,
       Forall (fun ev => is_save ev = false) pre
       /\ width mosaic = width target_big /\ height mosaic = height target_big
       /\ well_formed mosaic
       /\ fst run = pre ++ Save out_path mosaic ::
                      match save mosaic out_path with
                      | Returns _ => [PrintFinished out_path]
                      | _ => []
                      end
       /\ snd run = save mosaic out_path.
Proof.
  unfold build_mosaic_random. cbv zeta.
  destruct (tile_size =? 0); [by left; split; [constructor|]|].
  destruct (make_balanced_assignments _ _ _) as [[assignments g']| |];
    [|by left; split; [repeat constructor|]..].
  unfold Image_new.
  destruct ((width target_big <? 0) || (height target_big <? 0)) eqn:Hneg;
    [by left; split; [repeat constructor|]|].
  apply orb_false_iff in Hneg as [Hw Hh].
  set (cell := build_cell _ _ _ _ _ _ _). set (cells := _ ≫= _).
  set (m0 := {| width := width target_big |}).
  assert (Hwf0 : well_formed m0) by (apply raster_well_formed; lia).
  pose proof (build_cells_events cell cells (m0, 0)) as Hev.
  pose proof (fun m' d' => build_cells_size target_big (getdata <$> tiles)
    assignments mode tile_size (width target_big / tile_size)
    (width target_big / tile_size * (height target_big / tile_size))
    cells m0 0 m' d' Hwf0) as Hsz.
  fold cell in Hsz.
  destruct (build_cells cell cells (m0, 0)) as [evs r]. simpl in Hev, Hsz.
  assert (Hevs : Forall (fun ev => is_save ev = false) evs).
  { apply Hev. intros yi xi [m d] m' d' evs' Hc.
    by apply build_cell_inv in Hc as (? & _ & _ & _ & ?). }
  destruct r as [[m d]| |].
  - right. destruct (Hsz m d eq_refl) as (Hmw & Hmh & Hwf).
    rewrite save_and_report_spec.
    exists (PrintGrid (width target_big / tile_size) (height target_big / tile_size)
              (width target_big / tile_size * (height target_big / tile_size)) :: evs), m.
    split; [by constructor|].
    split; [exact Hmw|]. split; [exact Hmh|]. split; [exact Hwf|]. done.
  - left. split; [by constructor|done].
  - left. split; [by constructor|done].
Qed.

(** X15.  What a returned build has saved, for a positive tile size: the cell
    [(xi, yi)] of the mosaic holds the pixels of the tile assigned to it,
    recoloured by [color_match_pixels] against the patch of the target
    under the cell, row after row (black where the recoloured buffer is
    too short); outside the grid, in the strip the cells do not reach, the
    mosaic is black. *)
Theorem build_mosaic_random_cells (save : Image -> string -> outcome unit)
    (attempts : nat) (target_big : Image)
    (tiles : list Image) (mode : string) (seed : Z) (out_path : string)
    (tile_size : Z) :
  0 < tile_size ->
  snd (build_mosaic_random save attempts target_big tiles mode seed out_path tile_size)
    = Returns () ->
  let x_count := width target_big / tile_size in
  let y_count := height target_big / tile_size in
  exists assignments pre mosaic,
    assign attempts (Z.of_nat (length tiles)) (x_count * y_count) seed
      = Returns assignments
    /\ fst (build_mosaic_random save attempts target_big tiles mode seed out_path tile_size)
       = pre ++ [Save out_path mosaic; PrintFinished out_path]
    /\ (forall xi yi, 0 <= xi < x_count -> 0 <= yi < y_count ->
          exists tile_idx tile matched_px,
            assignments !! Z.to_nat (yi * x_count + xi) = Some tile_idx
            /\ tiles !! Z.to_nat tile_idx = Some tile
            /\ color_match_pixels (getdata tile)
                 (raster tile_size tile_size (fun dx dy =>
                    getpixel target_big (xi * tile_size + dx) (yi * tile_size + dy)))
                 mode = Returns matched_px
            /\ forall dx dy, 0 <= dx < tile_size -> 0 <= dy < tile_size ->
                 getpixel mosaic (xi * tile_size + dx) (yi * tile_size + dy)
                 = default black (matched_px !! Z.to_nat (dy * tile_size + dx)))
    /\ (forall x y, x_count * tile_size <= x \/ y_count * tile_size <= y ->
          getpixel mosaic x y = black).
Proof.
  intros Hts Hret x_count y_count. revert Hret.
  unfold build_mosaic_random, assign. cbv zeta. fold x_count. fold y_count.
  replace (tile_size =? 0) with false by (symmetry; apply Z.eqb_neq; lia).
  destruct (make_balanced_assignments _ _ _) as [[assignments g']| |]; [|done..].
  unfold Image_new.
  destruct ((width target_big <? 0) || (height target_big <? 0)) eqn:Hneg; [done|].
  apply orb_false_iff in Hneg as [HW HH].
  fold (grid y_count x_count).
  set (m0 := {| width := width target_big |}).
  assert (Hwf0 : well_formed m0) by (apply raster_well_formed; lia).
  pose proof (fun m' d' => build_cells_inv target_big (getdata <$> tiles) assignments
    mode tile_size x_count (x_count * y_count) (grid y_count x_count) m0 0 m' d'
    Hts Hwf0) as Hinv.
  destruct (build_cells _ (grid y_count x_count) (m0, 0)) as [evs r]. simpl in Hinv.
  destruct r as [[m d]| |]; [|done..]. rewrite save_and_report_spec.
  cbn [fst snd]. intros ->.
  destruct (Hinv m d eq_refl) as (Hmw & Hmh & Hwf & Hcells & Hpx). clear Hinv.
  simpl in Hmw, Hmh, Hpx.
  pose proof (Z.mul_div_le (width target_big) tile_size Hts) as Hxb.
  pose proof (Z.mul_div_le (height target_big) tile_size Hts) as Hyb.
  fold x_count in Hxb. fold y_count in Hyb.
  exists assignments, (PrintGrid x_count y_count (x_count * y_count) :: evs), m.
  split; [done|]. split; [done|]. split.
  - intros xi yi Hxi Hyi.
    destruct (Hcells yi xi) as [matched_px Hm]; [by apply grid_elem|].
    pose proof Hm as Hm'. revert Hm'. unfold matched_cell, crop. cbv zeta.
    replace ((xi * tile_size + tile_size <? xi * tile_size)
             || (yi * tile_size + tile_size <? yi * tile_size)) with false
      by (symmetry; apply orb_false_iff; lia).
    simpl.
    destruct (assignments !! Z.to_nat (yi * x_count + xi)) as [tile_idx|]; [|done].
    rewrite list_lookup_fmap.
    destruct (tiles !! Z.to_nat tile_idx) as [tile|] eqn:Htile; [|done]. simpl.
    replace (xi * tile_size + tile_size - xi * tile_size) with tile_size by lia.
    replace (yi * tile_size + tile_size - yi * tile_size) with tile_size by lia.
    intros Hcm. exists tile_idx, tile, matched_px. do 3 (split; [done|]).
    intros dx dy Hdx Hdy.
    assert (Hqx : (xi * tile_size + dx) / tile_size = xi)
      by (apply div_eq_iff; lia).
    assert (Hqy : (yi * tile_size + dy) / tile_size = yi)
      by (apply div_eq_iff; lia).
    assert (Hrx : (xi * tile_size + dx) mod tile_size = dx).
    { symmetry. apply (Z.mod_unique_pos _ _ xi); lia. }
    assert (Hry : (yi * tile_size + dy) mod tile_size = dy).
    { symmetry. apply (Z.mod_unique_pos _ _ yi); lia. }
    rewrite Hpx by nia. rewrite Hqx, Hqy, Hrx, Hry.
    rewrite bool_decide_eq_true_2 by (by apply grid_elem).
    unfold cell_pixel. by rewrite Hm.
  - intros x y Hout.
    destruct (decide (0 <= x < width target_big /\ 0 <= y < height target_big))
      as [[Hx Hy]|Hno].
    + rewrite Hpx by done. rewrite bool_decide_eq_false_2.
      * subst m0. rewrite getpixel_raster. by destruct (_ && _).
      * rewrite grid_elem. intros [Hyi Hxi].
        assert (x < x_count * tile_size)
          by (pose proof (proj1 (div_eq_iff x tile_size _ Hts) eq_refl); nia).
        assert (y < y_count * tile_size)
          by (pose proof (proj1 (div_eq_iff y tile_size _ Hts) eq_refl); nia).
        lia.
    + unfold getpixel. rewrite Hmw, Hmh.
      replace ((0 <=? x) && (x <? width target_big) && (0 <=? y)
               && (y <? height target_big)) with false; [done|].
      symmetry. apply not_true_iff_false. rewrite !andb_true_iff. lia.
Qed.

Lemma build_mosaic_random_cells_witness :
  let target := plain 3 2 (gray 10) in
  let tiles := [plain 2 2 (gray 7)] in
  0 < 2
  /\ snd (build_mosaic_random save_by_extension 64 target tiles "mean" 5 "mosaic.jpeg" 2) = Returns ()
  /\ exists assignments pre mosaic,
       assign 64 1 (1 * 1) 5 = Returns assignments
       /\ fst (build_mosaic_random save_by_extension 64 target tiles "mean" 5 "mosaic.jpeg" 2)
          = pre ++ [Save "mosaic.jpeg" mosaic; PrintFinished "mosaic.jpeg"]
       /\ (forall x y, 1 * 2 <= x \/ 1 * 2 <= y -> getpixel mosaic x y = black).
Proof.
  intros target tiles. split; [lia|].
  assert (Hret : snd (build_mosaic_random save_by_extension 64 target tiles "mean" 5 "mosaic.jpeg" 2)
                 = Returns ()) by (vm_compute; reflexivity).
  split; [exact Hret|].
  destruct (build_mosaic_random_cells save_by_extension 64 target tiles "mean" 5
              "mosaic.jpeg" 2 ltac:(lia) Hret) as (assignments & pre & mosaic & Ha & Hf & _ & Hout).
  exists assignments, pre, mosaic. split; [exact Ha|]. split; [exact Hf|exact Hout].
Defined.










Lemma grid_nil (y_count x_count : Z) :
  y_count <= 0 \/ x_count <= 0 -> grid y_count x_count = [].
Proof.
  intros Hc. apply elem_of_nil_inv. intros [yi xi] Hin%grid_elem. lia.
Qed.

(** X17.  A tile larger than the target is not refused: when the target is
    narrower or lower than one tile the grid has no cell, no tile is
    recoloured or pasted, and the build hands to [mosaic.save] an image of
    the target's size that is black throughout; the outcome of the build
    is the outcome of that call. *)
Theorem build_mosaic_random_oversized_tile (save : Image -> string -> outcome unit)
    (attempts : nat) (target_big : Image)
    (tiles : list Image) (mode : string) (seed : Z) (out_path : string)
    (tile_size : Z) :
  well_formed target_big -> tiles <> [] ->
  width target_big < tile_size \/ height target_big < tile_size ->
  let mosaic := plain (width target_big) (height target_big) black in
  build_mosaic_random save attempts target_big tiles mode seed out_path tile_size
  = (PrintGrid (width target_big / tile_size) (height target_big / tile_size) 0 ::
     Save out_path mosaic ::
       match save mosaic out_path with
       | Returns _ => [PrintFinished out_path]
       | _ => []
       end,
     save mosaic out_path).
Proof.
  intros (HW & HH & _) Hne Hbig mosaic. unfold build_mosaic_random. cbv zeta.
  replace (tile_size =? 0) with false by (symmetry; apply Z.eqb_neq; lia).
  assert (Hc : width target_big / tile_size = 0 \/ height target_big / tile_size = 0).
  { destruct Hbig; [left|right]; apply Z.div_small; lia. }
  assert (Hx : 0 <= width target_big / tile_size) by (apply Z.div_pos; lia).
  assert (Hy : 0 <= height target_big / tile_size) by (apply Z.div_pos; lia).
  assert (H0 : width target_big / tile_size * (height target_big / tile_size) = 0)
    by (destruct Hc as [-> | ->]; lia).
  rewrite H0.
  assert (HN : Z.of_nat (length tiles) <> 0) by (destruct tiles; [done|simpl; lia]).
  unfold make_balanced_assignments.
  replace (Z.of_nat (length tiles) =? 0) with false by (symmetry; by apply Z.eqb_neq).
  assert (Hr : ceil_div 0 (Z.of_nat (length tiles)) = 0).
  { pose proof (ceil_div_bounds 0 (Z.of_nat (length tiles)) ltac:(lia)). nia. }
  rewrite Hr. unfold py_repeat. simpl.
  unfold Image_new.
  replace ((width target_big <? 0) || (height target_big <? 0)) with false
    by (symmetry; apply orb_false_iff; lia).
  fold (grid (height target_big / tile_size) (width target_big / tile_size)).
  rewrite grid_nil by lia. cbn [build_cells]. by rewrite save_and_report_spec.
Qed.

Lemma build_mosaic_random_oversized_tile_witness :
  let target := plain 3 2 (gray 10) in
  let tiles := [plain 5 5 (gray 7)] in
  well_formed target /\ tiles <> [] /\ (width target < 5 \/ height target < 5)
  /\ build_mosaic_random save_by_extension 64 target tiles "meanstd" 12345 "mosaic" 5
     = ([PrintGrid (3 / 5) (2 / 5) 0; Save "mosaic" (plain 3 2 black)],
        Raises ValueError).
Proof.
  intros target tiles.
  assert (Hwf : well_formed target) by (repeat split; vm_compute; congruence).
  assert (Hne : tiles <> []) by discriminate.
  assert (Hbig : width target < 5 \/ height target < 5) by (left; simpl; lia).
  do 3 (split; [assumption|]).
  exact (build_mosaic_random_oversized_tile save_by_extension 64 target tiles
           "meanstd" 12345 "mosaic" 5 Hwf Hne Hbig).
Defined.

(** ** The whole run *)




Section Main_facts.
Variable resize : Image -> Z -> Z -> outcome Image.
Variable save : Image -> string -> outcome unit.

(** What the program relies on of [Image.resize]: an image it returns has
    the size asked for, and is an RGB image when its source is. *)
Hypothesis resize_sized : forall im w h im',
  resize im w h = Returns im' ->
  width im' = w /\ height im' = h /\ well_formed im'.
Hypothesis resize_rgb : forall im w h im',
  forallb valid_pixel (data im) = true -> resize im w h = Returns im' ->
  forallb valid_pixel (data im') = true.




End Main_facts.

